(** * Trackintel: typed tabular views and segment labelling

    A shallow embedding of

    - [trackintel/analysis/labelling.py]: [create_activity_flag],
      [predict_transport_mode], [_predict_transport_mode_simple_coarse],
      [category_by_speed], [_check_categories];
    - [trackintel/model/triplegs.py]: [_required_columns],
      [Triplegs.__init__], [Triplegs._validate], [Triplegs._check],
      [Triplegs.generate_trips];
    - the capability registry and the typed-view base of
      [trackintel/model/util.py], of which only the tests are at hand.

    Speeds and speed bounds are binary64 numbers, as in Python; tables live
    in a store of objects so that copies and in-place writes can be told
    apart. *)

From Stdlib Require Import Floats ZArith Lia.
From stdpp Require Import gmap strings list fin_maps pretty.

Set Default Proof Using "Type".
Local Open Scope Z_scope.

(** ** Python values, exceptions and results *)

Module Py.

(** The exceptions the modelled code can raise, with their messages. *)
Inductive exn : Type :=
| AssertionError (msg : string)
| AttributeError (msg : string)
| ValueError (msg : string)
| KeyError (key : string)
| TypeError (msg : string)
| IndexError (msg : string)
| OverflowError (msg : string)
| OutOfBoundsTimedelta (msg : string)
| ReferenceError (msg : string).

(** A call either returns a value or raises. *)
Inductive result (A : Type) : Type :=
| Ok (a : A)
| Raise (e : exn).
Arguments Ok {A} a.
Arguments Raise {A} e.

#[export] Instance result_ret : MRet result := λ A a, Ok a.
#[export] Instance result_bind : MBind result := λ A B f m,
  match m with
  | Ok a => f a
  | Raise e => Raise e
  end.

#[export] Instance result_fmap : FMap result := λ A B f m,
  match m with
  | Ok a => Ok (f a)
  | Raise e => Raise e
  end.

Definition raises {A} (r : result A) : Prop := ∃ e, r = Raise e.

(** [assert cond, msg] *)
Definition py_assert (cond : bool) (msg : string) : result unit :=
  if cond then Ok tt else Raise (AssertionError msg).

(** What a cell of an object column holds here: [None], a NaN filler, or
    a string. *)
Inductive PyObj : Type :=
| PyNone
| PyNaN
| PyStr (s : string).

(** [', '.join(xs)] *)
Fixpoint join (sep : string) (xs : list string) : string :=
  match xs with
  | [] => ""
  | [x] => x
  | x :: rest => x +:+ sep +:+ join sep rest
  end.

(** [repr] of a list of plain strings, as an f-string prints it. *)
Definition repr_list (xs : list string) : string :=
  "[" +:+ join ", " ((λ x, "'" +:+ x +:+ "'") <$> xs) +:+ "]".

(** [repr] of a pair of sizes, as an f-string prints [obj.shape]. *)
Definition repr_shape (s : nat * nat) : string :=
  "(" +:+ pretty s.1 +:+ ", " +:+ pretty s.2 +:+ ")".

(** A dict with float keys, in insertion order. *)
Definition dict : Type := list (float * string).

(** [list(d.keys())], also the order of [for k in d]. *)
Definition keys (d : dict) : list float := d.*1.

(** [d[k]] *)
Fixpoint dict_getitem (d : dict) (k : float) : result string :=
  match d with
  | [] => Raise (KeyError "float")
  | (k', v) :: rest => if PrimFloat.eqb k' k then Ok v else dict_getitem rest k
  end.

End Py.
Export Py.

(** ** The tabular container *)

Module Pandas.

(** A geometry, by the two attributes the code reads. *)
Record Geom : Type := { geom_type : string; is_valid : bool }.

(** A column with its dtype. Instants and durations are nanosecond counts
    that fit a signed 64-bit integer, [None] standing for NaT; a datetime
    column carries its time zone, if it has one. *)
Inductive Column : Type :=
| ColFloat (xs : list float)
| ColInt (xs : list Z)
| ColBool (xs : list bool)
| ColObject (xs : list PyObj)
| ColDatetime (tz : option string) (xs : list (option Z))
| ColTimedelta (xs : list (option Z))
| ColGeometry (xs : list (option Geom)).

(** [str(column.dtype)] *)
Definition dtype_name (c : Column) : string :=
  match c with
  | ColFloat _ => "float64"
  | ColInt _ => "int64"
  | ColBool _ => "bool"
  | ColObject _ => "object"
  | ColDatetime None _ => "datetime64[ns]"
  | ColDatetime (Some tz) _ => "datetime64[ns, " +:+ tz +:+ "]"
  | ColTimedelta _ => "timedelta64[ns]"
  | ColGeometry _ => "geometry"
  end.

(** [isinstance(column.dtype, pd.DatetimeTZDtype)] *)
Definition is_DatetimeTZDtype (c : Column) : bool :=
  match c with
  | ColDatetime (Some _) _ => true
  | _ => false
  end.

(** A column label: a string, or an integer, as in a table built without
    column names. *)
Inductive Label : Type :=
| LStr (s : string)
| LInt (z : Z).
Coercion LStr : string >-> Label.

#[export] Instance Label_eq_dec : EqDecision Label.
Proof. solve_decision. Defined.

Definition label_eqb (a b : Label) : bool :=
  match a, b with
  | LStr s, LStr s' => String.eqb s s'
  | LInt z, LInt z' => Z.eqb z z'
  | _, _ => false
  end.

(** [str(label)] *)
Definition label_text (c : Label) : string :=
  match c with
  | LStr s => s
  | LInt z => pretty z
  end.

(** The strings among the labels, as [str.join] reads them: a label that
    is no string is a [TypeError]. *)
Fixpoint str_items (i : nat) (labels : list Label) : result (list string) :=
  match labels with
  | [] => Ok []
  | LStr s :: rest => cons s <$> str_items (S i) rest
  | LInt _ :: _ => Raise (TypeError
      ("sequence item " +:+ pretty i +:+ ": expected str instance, int found"))
  end.

(** [sep.join(labels)] *)
Definition join_labels (sep : string) (labels : list Label) : result string :=
  join sep <$> str_items 0 labels.

(** A table: row labels, labelled columns in column order (a label may
    occur more than once), and the label of the active geometry column. *)
Record DataFrame : Type := {
  index : list Z;
  columns : list (Label * Column);
  geometry_name : string
}.

(** [obj.shape] *)
Definition shape (obj : DataFrame) : nat * nat :=
  (length (index obj), length (columns obj)).

(** [c in obj.columns] *)
Definition has_column (obj : DataFrame) (c : Label) : bool :=
  bool_decide (c ∈ (columns obj).*1).

(** What [obj[c]] is: the column, when the label occurs once; a table of
    the columns under that label, when it is repeated. *)
Inductive Selection : Type :=
| Series (col : Column)
| Frame (cols : list Column).

(** [obj[c]] *)
Definition item (obj : DataFrame) (c : Label) : result Selection :=
  match filter (λ p, p.1 = c) (columns obj) with
  | [] => Raise (KeyError (label_text c))
  | [p] => Ok (Series p.2)
  | ps => Ok (Frame ps.*2)
  end.

(** [selection.dtype]: a table has no such attribute. *)
Definition dtype (s : Selection) : result Column :=
  match s with
  | Series col => Ok col
  | Frame _ => Raise (AttributeError "'DataFrame' object has no attribute 'dtype'")
  end.

Fixpoint assoc (cols : list (Label * Column)) (c : Label) : option Column :=
  match cols with
  | [] => None
  | (c', col) :: rest => if label_eqb c' c then Some col else assoc rest c
  end.

(** The column a table holds under label [c], the first one where the
    label is repeated. This is how the results read a table back; the
    expression [obj[c]] of the code is [item]. *)
Definition first_column (obj : DataFrame) (c : Label) : result Column :=
  match assoc (columns obj) c with
  | Some col => Ok col
  | None => Raise (KeyError (label_text c))
  end.

(** Every column under label [c] replaced by [col]. *)
Definition replace_all (cols : list (Label * Column)) (c : Label) (col : Column)
  : list (Label * Column) :=
  (λ p, if label_eqb p.1 c then (p.1, col) else p) <$> cols.

Fixpoint assoc_set (cols : list (Label * Column)) (c : Label) (col : Column)
  : list (Label * Column) :=
  match cols with
  | [] => [(c, col)]
  | (c', col') :: rest =>
      if label_eqb c' c then (c', col) :: replace_all rest c col
      else (c', col') :: assoc_set rest c col
  end.

(** [obj[c] = col], as a new table value: an existing column is replaced
    where it stands, and so is every column under a label that is
    repeated; a new one is appended. *)
Definition setitem (obj : DataFrame) (c : Label) (col : Column) : DataFrame :=
  {| index := index obj;
     columns := assoc_set (columns obj) c col;
     geometry_name := geometry_name obj |}.

(** [obj.drop(columns=c)], as a new table value. *)
Definition drop (obj : DataFrame) (c : Label) : DataFrame :=
  {| index := index obj;
     columns := filter (λ p, p.1 ≠ c) (columns obj);
     geometry_name := geometry_name obj |}.

(** [obj.geometry]: the active geometry column. *)
Definition geometry (obj : DataFrame) : result (list (option Geom)) :=
  match assoc (columns obj) (geometry_name obj) with
  | Some (ColGeometry gs) => Ok gs
  | _ => Raise (AttributeError
      ("You are calling a geospatial method on the GeoDataFrame, but the active geometry column ('"
       +:+ geometry_name obj +:+ "') is not present."))
  end.

(** [gs.is_valid.all()]; a missing geometry is not valid. *)
Definition is_valid_all (gs : list (option Geom)) : bool :=
  forallb (λ g, from_option is_valid false g) gs.

(** [gs.iloc[0].geom_type] *)
Definition first_geom_type (gs : list (option Geom)) : result string :=
  match gs with
  | [] => Raise (IndexError "single positional indexer is out-of-bounds")
  | None :: _ => Raise (AttributeError "'NoneType' object has no attribute 'geom_type'")
  | Some g :: _ => Ok (geom_type g)
  end.

(** The largest nanosecond count of an instant or a duration; the least
    64-bit integer is NaT. *)
Definition int64_max : Z := 9223372036854775807.

Definition fits_int64 (d : Z) : bool := bool_decide (- int64_max ≤ d ≤ int64_max).

(** The difference of two cells; NaT on either side gives NaT. *)
Definition sub_cells (x y : option Z) : option Z :=
  match x, y with
  | Some x, Some y => Some (x - y)
  | _, _ => None
  end.

(** Datetime arithmetic is checked: a result outside the 64-bit range is
    an [OverflowError]. *)
Definition checked (ds : list (option Z)) : result (list (option Z)) :=
  if forallb (λ d, from_option fits_int64 true d) ds then Ok ds
  else Raise (OverflowError "Overflow in int64 addition").

(** [a - b] on two columns: instants less instants (zone-aware with
    zone-aware, naive with naive) and durations less durations are
    durations, instants less durations are instants. Columns of other
    dtypes are not what the function is meant for; they are taken to end
    in a [TypeError]. *)
Definition column_sub (a b : Column) : result Column :=
  match a, b with
  | ColDatetime tza xs, ColDatetime tzb ys =>
      if bool_decide (is_Some tza ↔ is_Some tzb) then
        ColTimedelta <$> checked (zip_with sub_cells xs ys)
      else Raise (TypeError "Cannot subtract tz-naive and tz-aware datetime-like objects.")
  | ColTimedelta xs, ColTimedelta ys =>
      ColTimedelta <$> checked (zip_with sub_cells xs ys)
  | ColDatetime tz xs, ColTimedelta ys =>
      ColDatetime tz <$> checked (zip_with sub_cells xs ys)
  | _, _ => Raise (TypeError "unsupported operand type(s) for -")
  end.

(** [a - b] on two selections. With a table on one side pandas aligns
    the column with the labels of the table, which it refuses to do for
    labels that are repeated; two tables under different labels are
    aligned to columns of instants against columns of missing values,
    which cannot be subtracted. *)
Definition selection_sub (a b : Selection) : result Column :=
  match a, b with
  | Series x, Series y => column_sub x y
  | Frame _, Frame _ => Raise (TypeError "unsupported operand type(s) for -")
  | _, _ => Raise (ValueError "cannot reindex on an axis with duplicate labels")
  end.

(** [datetime.timedelta(minutes=m)] for a whole number of minutes, in
    nanoseconds. Python keeps days, seconds and microseconds, and refuses
    more than 999999999 days either way. *)
Definition timedelta_minutes (m : Z) : result Z :=
  if bool_decide (Z.abs (m / 1440) ≤ 999999999) then Ok (m * 60 * 1000000000)
  else Raise (OverflowError
         ("days=" +:+ pretty (m / 1440) +:+ "; must have magnitude <= 999999999")).

(** [a > delta] on a column of durations; NaT compares false. The
    [timedelta] enters pandas as a count of microseconds, which must fit
    64 bits, and is then compared exactly. (pandas before 2.0 asks for a
    count of nanoseconds that fits; the results below keep to thresholds
    that meet both.) *)
Definition column_gt (a : Column) (delta : Z) : result Column :=
  match a with
  | ColTimedelta xs =>
      if fits_int64 (delta / 1000) then
        Ok (ColBool ((λ x, from_option (λ d, bool_decide (delta < d)) false x) <$> xs))
      else Raise (OutOfBoundsTimedelta "Cannot cast timedelta to unit='us' without overflow.")
  | _ => Raise (TypeError "Invalid comparison between a column and timedelta")
  end.

(** Row labels without repetition. *)
Definition is_unique (labels : list Z) : bool := bool_decide (NoDup labels).

Fixpoint value_at (labels : list Z) (values : list PyObj) (l : Z) : PyObj :=
  match labels, values with
  | l' :: labels', v :: values' => if Z.eqb l' l then v else value_at labels' values' l
  | _, _ => PyNaN
  end.

(** What [obj[c] = series] stores for a series on [labels]: its values as
    they are when the labels are the table's own, else the values found by
    label, with NaN where the series has none. *)
Definition align (target labels : list Z) (values : list PyObj) : result (list PyObj) :=
  if bool_decide (labels = target) then Ok values
  else if is_unique labels then Ok (value_at labels values <$> target)
  else Raise (ValueError "cannot reindex on an axis with duplicate labels").

(** The store: objects by identity. *)
Definition loc : Type := positive.
Abbreviation heap := (gmap loc DataFrame).

Definition deref (h : heap) (l : loc) : result DataFrame :=
  match h !! l with
  | Some obj => Ok obj
  | None => Raise (ReferenceError "no such object")
  end.

(** [obj.copy()] on the object at [l]: a new object with the same
    contents. *)
Definition copy (h : heap) (l : loc) : result loc * heap :=
  match deref h l with
  | Ok obj => let l' := fresh (dom h) in (Ok l', <[l' := obj]> h)
  | Raise e => (Raise e, h)
  end.

End Pandas.
Export Pandas.

(** ** [trackintel/analysis/labelling.py] *)

Module labelling.

(** The result of [get_speed_triplegs], by what its caller reads: the row
    labels and the float column [speed]. *)
Record SpeedFrame : Type := { speed_index : list Z; speed : list float }.

(** The default of the keyword argument [categories]; [3.6] is the
    nearest binary64 number, as in Python. *)
#[warnings="-inexact-float"]
Definition default_categories : dict :=
  [ ((15 / 3.6)%float, "slow_mobility");
    ((100 / 3.6)%float, "motorized_mobility");
    (infinity, "fast_mobility") ].

(** [_check_categories(cat)]; [a >= b] on floats is [b <= a]. *)
Definition _check_categories (cat : dict) : bool :=
  let bounds := keys cat in
  foldl (λ (correct : bool) (i : nat),
           if PrimFloat.leb (nth (i + 1) bounds nan) (nth i bounds nan)
           then false else correct)
        true (seq 0 (length bounds - 1)).

(** The loop of [category_by_speed] over the keys still to visit; falling
    off its end returns [None]. *)
Fixpoint category_loop (categories : dict) (speed : float) (bounds : list float)
  : result PyObj :=
  match bounds with
  | [] => Ok PyNone
  | bound :: rest =>
      if PrimFloat.ltb speed bound then PyStr <$> dict_getitem categories bound
      else category_loop categories speed rest
  end.

(** [category_by_speed(speed)], closed over [categories]. *)
Definition category_by_speed (categories : dict) (speed : float) : result PyObj :=
  category_loop categories speed (keys categories).

(** [series.apply(f)] *)
Definition series_apply (f : float → result PyObj) (xs : list float)
  : result (list PyObj) :=
  mapM f xs.

(** [create_activity_flag(staypoints, method, time_threshold,
    activity_column_name)], with the threshold in whole minutes. The right
    hand side is evaluated first, the difference before the [timedelta];
    the assignment then writes to the object passed in, which is also what
    is returned. *)
Definition create_activity_flag (h : heap) (staypoints : loc) (method : string)
    (time_threshold : Z) (activity_column_name : string) : result loc * heap :=
  if String.eqb method "time_threshold" then
    match
      obj ← deref h staypoints;
      finished_at ← item obj "finished_at";
      started_at ← item obj "started_at";
      duration ← selection_sub finished_at started_at;
      delta ← timedelta_minutes time_threshold;
      flag ← column_gt duration delta;
      mret (setitem obj activity_column_name flag)
    with
    | Ok obj' => (Ok staypoints, <[staypoints := obj']> h)
    | Raise e => (Raise e, h)
    end
  else
    (Raise (AttributeError
       ("Method " +:+ method +:+ " not known for creating activity flag.")), h).

Section predict.

(** Modelled from the spec: [get_speed_triplegs] (imported from
    [trackintel.geogr]) is not among the sources. It computes the average
    speed of each segment from the table it is given and leaves that table
    alone, so it is a function of the table's contents. *)
Variable get_speed_triplegs : DataFrame → result SpeedFrame.

(** [_predict_transport_mode_simple_coarse(triplegs_in, categories)] *)
Definition _predict_transport_mode_simple_coarse (h : heap) (triplegs_in : loc)
    (categories : dict) : result loc * heap :=
  if negb (_check_categories categories) then
    (Raise (ValueError "the categories must be in increasing order"), h)
  else
    match copy h triplegs_in with
    | (Raise e, h1) => (Raise e, h1)
    | (Ok triplegs, h1) =>
        match
          obj ← deref h1 triplegs;
          triplegs_speed ← get_speed_triplegs obj;
          modes ← series_apply (category_by_speed categories) (speed triplegs_speed);
          values ← align (index obj) (speed_index triplegs_speed) modes;
          mret (setitem obj "mode" (ColObject values))
        with
        | Ok obj' => (Ok triplegs, <[triplegs := obj']> h1)
        | Raise e => (Raise e, h1)
        end
    end.

(** [predict_transport_mode(triplegs, method, **kwargs)]; [categories] is
    the keyword argument of that name, if given. *)
Definition predict_transport_mode (h : heap) (triplegs : loc) (method : string)
    (categories : option dict) : result loc * heap :=
  if String.eqb method "simple-coarse" then
    let categories := default default_categories categories in
    _predict_transport_mode_simple_coarse h triplegs categories
  else
    (Raise (AttributeError
       ("Method " +:+ method +:+ " not known for predicting tripleg transport modes.")), h).

End predict.

End labelling.

(** ** [trackintel/model/triplegs.py] *)

Module triplegs.

Definition _required_columns : list string := ["user_id"; "started_at"; "finished_at"].

(** [any([c not in obj.columns for c in _required_columns])] *)
Definition any_missing (obj : DataFrame) : bool :=
  existsb (λ c : string, negb (has_column obj c)) _required_columns.

Definition msg_empty (obj : DataFrame) : string :=
  "Geodataframe is empty with shape: " +:+ repr_shape (shape obj).

(** The message about the columns; [', '.join(obj.columns)] is part of it. *)
Definition msg_columns (obj : DataFrame) : result string :=
  labels ← join_labels ", " (columns obj).*1;
  mret ("To process a DataFrame as a collection of triplegs, it must have the properties "
        +:+ repr_list _required_columns +:+ ", but it has [" +:+ labels +:+ "].").

Definition msg_dtype (c : string) (col : Column) : string :=
  "dtype of " +:+ c +:+ " is " +:+ dtype_name col
  +:+ " but has to be datetime64 and timezone aware".

Definition msg_invalid : string :=
  "Not all geometries are valid. Try x[~ x.geometry.is_valid] where x is you GeoDataFrame".

Definition msg_linestring : string :=
  "The geometry must be a LineString (only first checked).".

(** [Triplegs._validate(obj, validate_geometry)] *)
Definition _validate (obj : DataFrame) (validate_geometry : bool) : result unit :=
  py_assert (bool_decide (0 < (shape obj).1)%nat) (msg_empty obj);;
  (if any_missing obj then msg ← msg_columns obj; Raise (AttributeError msg) else Ok tt);;
  started_at ← item obj "started_at" ≫= dtype;
  py_assert (is_DatetimeTZDtype started_at) (msg_dtype "started_at" started_at);;
  finished_at ← item obj "finished_at" ≫= dtype;
  py_assert (is_DatetimeTZDtype finished_at) (msg_dtype "finished_at" finished_at);;
  if validate_geometry then
    gs ← geometry obj;
    py_assert (is_valid_all gs) msg_invalid;;
    gs' ← geometry obj;
    ty ← first_geom_type gs';
    if negb (String.eqb ty "LineString") then Raise (AttributeError msg_linestring)
    else Ok tt
  else Ok tt.

(** [Triplegs._check(obj, validate_geometry)] *)
Definition _check (obj : DataFrame) (validate_geometry : bool) : result bool :=
  if any_missing obj then Ok false
  else if bool_decide ((shape obj).1 ≤ 0)%nat then Ok false
  else
    started_at ← item obj "started_at" ≫= dtype;
    if negb (is_DatetimeTZDtype started_at) then Ok false
    else
      finished_at ← item obj "finished_at" ≫= dtype;
      if negb (is_DatetimeTZDtype finished_at) then Ok false
      else if validate_geometry then
        gs ← geometry obj;
        if is_valid_all gs then
          gs' ← geometry obj;
          ty ← first_geom_type gs';
          Ok (String.eqb ty "LineString")
        else Ok false
      else Ok true.

(** An instance of the class: the table it is built on. *)
Record Triplegs : Type := { frame : DataFrame }.

(** [Triplegs.__init__]: the parent constructor builds the table from the
    data given, here a table already; then [_validate] runs on it. *)
Definition __init__ (data : DataFrame) (validate_geometry : bool) : result Triplegs :=
  _validate data validate_geometry;;
  mret {| frame := data |}.

End triplegs.

(** ** The typed-view base and the capability registry *)

Module util.

(** Modelled from the spec: the contract of a typed view. The module that
    holds the typed-view base ([trackintel/model/util.py]) is not among the
    sources, only its tests are. A contract asks for required columns, for
    columns that hold zone-aware instants and, where [needs_rows] is set,
    for at least one row. *)
Record Contract : Type := {
  required_columns : list string;
  timezone_columns : list string;
  needs_rows : bool
}.

(** Modelled from the spec: the dtype tests of a check, column by column,
    as [Triplegs._check] under [trackintel/model/triplegs.py] makes them.
    The typed-view base is not among the sources. *)
Fixpoint check_timezones (cs : list string) (t : DataFrame) : result bool :=
  match cs with
  | [] => Ok true
  | c :: rest =>
      col ← item t c ≫= dtype;
      if negb (is_DatetimeTZDtype col) then Ok false
      else check_timezones rest t
  end.

(** Modelled from the spec: the check of a contract, the [_check] of a
    class called without validation of the geometry, in the order of
    [Triplegs._check]: columns, rows, dtypes. The typed-view base is not
    among the sources. *)
Definition check (K : Contract) (t : DataFrame) : result bool :=
  if existsb (λ c : string, negb (has_column t c)) (required_columns K) then Ok false
  else if needs_rows K && bool_decide ((shape t).1 ≤ 0)%nat then Ok false
  else check_timezones (timezone_columns K) t.



(** Modelled from the spec: a typed view, by what the tests under
    [tests/model/test_util.py] give a class: a name, whether it is built on
    the geometry-aware container ([TrackintelGeoDataFrame]) or the plain
    one ([TrackintelDataFrame]), its [_check] and its optional
    [fallback_class]. The typed-view base is not among the sources. *)
#[warnings="-register-all"]
Inductive TypedView : Type :=
| View (name : string) (geometry_aware : bool) (_check : DataFrame → result bool)
       (fallback_class : option TypedView).

Definition geometry_aware (v : TypedView) : bool :=
  match v with View _ g _ _ => g end.

Definition _check (v : TypedView) : DataFrame → result bool :=
  match v with View _ _ f _ => f end.

Definition fallback_class (v : TypedView) : option TypedView :=
  match v with View _ _ _ f => f end.

(** Modelled from the spec: the type of a result, a typed view or one of
    the two plain containers. The typed-view base is not among the
    sources. *)
Inductive Tag : Type :=
| Typed (v : TypedView)
| PlainGeoDataFrame
| PlainDataFrame.

(** Modelled from the spec: what an operation hands back before it is
    tagged: a table, in the geometry-aware container or in the plain one,
    or something that is no table. The typed-view base is not among the
    sources. *)
Inductive Value : Type :=
| Tabular (geo : bool) (t : DataFrame)
| Scalar (x : PyObj).

Definition plain (geo : bool) : Tag :=
  if geo then PlainGeoDataFrame else PlainDataFrame.

(** Modelled from the spec: the constructor selection, as the tests under
    [tests/model/test_util.py] fix it. The check of the view runs on the
    result; a result that fails it keeps the plain container it came in; a
    result that passes is of the view's class when its container fits, and
    else of the fallback class if one is declared. The typed-view base
    ([_wrapped_gdf_method], [TrackintelGeoDataFrame._constructor]) is not
    among the sources. *)
Definition select (v : TypedView) (geo : bool) (t : DataFrame) : result Tag :=
  passes ← _check v t;
  if negb passes then mret (plain geo)
  else if negb (geometry_aware v) || geo then mret (Typed v)
  else match fallback_class v with
       | Some v' => mret (Typed v')
       | None => mret PlainDataFrame
       end.

(** Modelled from the spec: Derive. A result that is no table is returned
    untouched and untagged; a table is tagged by [select]. The typed-view
    base is not among the sources. *)
Definition derive (v : TypedView) (operation : DataFrame → Value) (t : DataFrame)
  : result (option Tag * Value) :=
  match operation t with
  | Tabular geo t' => tag ← select v geo t'; mret (Some tag, Tabular geo t')
  | Scalar x => mret (None, Scalar x)
  end.

(** A column of geometries is left. *)
Definition has_geometry (t : DataFrame) : bool :=
  existsb (λ p, match p.2 with ColGeometry _ => true | _ => false end) (columns t).

(** Modelled from the spec: dropping a column, as an operation to derive
    with, on an instance whose class is built on the geometry-aware
    container ([aware]) or on the plain one. The geometry-aware container
    hands back a plain table when no column of geometries is left. The
    typed-view base is not among the sources. *)
Definition drop_column (aware : bool) (c : string) (t : DataFrame) : Value :=
  Tabular (aware && has_geometry (drop t c)) (drop t c).

Section registry.

(** What a factory builds from a container instance. *)
Context {Wrapped : Type}.

(** Modelled from the spec: the capability registry with its bindings and
    the names it has warned about, oldest first. The registry
    ([_register_trackintel_accessor], [NonCachedAccessor]) is not among the
    sources. *)
Record Registry : Type := {
  bindings : gmap string (DataFrame → Wrapped);
  warned : list string
}.

(** Modelled from the spec: [register(name, factory)] binds [factory] under
    [name]; a name already bound is warned about and bound anew. The
    registry is not among the sources. *)
Definition register (name : string) (factory : DataFrame → Wrapped) (r : Registry)
  : Registry :=
  {| bindings := <[name := factory]> (bindings r);
     warned := if bool_decide (is_Some (bindings r !! name))
               then warned r ++ [name] else warned r |}.

(** Modelled from the spec: access to a bound name on a container instance
    calls the factory on that instance, anew at each access. The registry is
    not among the sources. *)
Definition access (r : Registry) (name : string) (instance : DataFrame)
  : result Wrapped :=
  match bindings r !! name with
  | Some factory => Ok (factory instance)
  | None => Raise (AttributeError
      ("'DataFrame' object has no attribute '" +:+ name +:+ "'"))
  end.

(** Modelled from the spec: access on the container type returns the
    factory itself. The registry is not among the sources. *)
Definition access_on_type (r : Registry) (name : string)
  : result (DataFrame → Wrapped) :=
  match bindings r !! name with
  | Some factory => Ok factory
  | None => Raise (AttributeError
      ("type object 'DataFrame' has no attribute '" +:+ name +:+ "'"))
  end.

End registry.
Arguments Registry Wrapped : clear implicits.

End util.

(** ** The notions of the specification *)

Module reading.
Import labelling.

(** The first band, in the order of the mapping, whose upper bound exceeds
    the speed. *)
Fixpoint first_band (categories : dict) (speed : float) : option (float * string) :=
  match categories with
  | [] => None
  | (bound, name) :: rest =>
      if PrimFloat.ltb speed bound then Some (bound, name)
      else first_band rest speed
  end.

(** The mode of a row: the category of its first band, or no category. *)
Definition mode_of (categories : dict) (speed : float) : PyObj :=
  match first_band categories speed with
  | Some (_, name) => PyStr name
  | None => PyNone
  end.

(** Upper bounds in strictly ascending order. *)
Fixpoint strictly_ascending (bounds : list float) : bool :=
  match bounds with
  | a :: rest =>
      match rest with
      | b :: _ => PrimFloat.ltb a b && strictly_ascending rest
      | [] => true
      end
  | [] => true
  end.

(** No bound exceeds the speed. *)
Definition above_all (categories : dict) (speed : float) : Prop :=
  ∀ bound, bound ∈ keys categories → PrimFloat.ltb speed bound = false.

(** The column [mode] of the table a call returned. *)
Definition assigned_modes (out : result loc * heap) : result Column :=
  l ← out.1; obj ← deref out.2 l; first_column obj "mode".

(** A duration of more than [m] minutes between two instants. *)
Definition exceeds_minutes (m : Z) (started_at finished_at : option Z) : Prop :=
  ∃ a b, started_at = Some a ∧ finished_at = Some b ∧ m * 60 * 1000000000 < b - a.

(** [obj'] is [obj] with column [c] set and nothing else touched: same
    rows, same geometry column, what stands under every other label as it
    was, and [c] at the end when it is new, in its old place when it is
    not. *)
Definition extended_by (c : string) (obj obj' : DataFrame) : Prop :=
  index obj' = index obj ∧
  geometry_name obj' = geometry_name obj ∧
  (∀ c' : Label, c' ≠ c →
     item obj' c' = item obj c' ∧ first_column obj' c' = first_column obj c') ∧
  (∃ col, first_column obj' c = Ok col ∧
     (has_column obj c = false → columns obj' = columns obj ++ [(LStr c, col)]) ∧
     (has_column obj c = true → (columns obj').*1 = (columns obj).*1)).

(** The requirements the class docstring and [_validate] put on the data. *)
Inductive Requirement : Type :=
| NonEmpty
| RequiredColumns
| TimezoneAware (c : string).

(** [data] breaks requirement [r]. *)
Definition violates (data : DataFrame) (r : Requirement) : Prop :=
  match r with
  | NonEmpty => (shape data).1 = 0%nat
  | RequiredColumns =>
      ∃ c : string, c ∈ triplegs._required_columns ∧ has_column data c = false
  | TimezoneAware c =>
      c ∈ ["started_at"; "finished_at"] ∧
      ∃ col, item data c = Ok (Series col) ∧ is_DatetimeTZDtype col = false
  end.

(** The error that names requirement [r] on [data]. *)
Definition names (data : DataFrame) (r : Requirement) (e : exn) : Prop :=
  match r with
  | NonEmpty => e = AssertionError (triplegs.msg_empty data)
  | RequiredColumns => ∃ msg, triplegs.msg_columns data = Ok msg ∧ e = AttributeError msg
  | TimezoneAware c =>
      ∃ col, item data c = Ok (Series col) ∧ e = AssertionError (triplegs.msg_dtype c col)
  end.

(** [m] minutes, in nanoseconds. *)
Definition minutes (m : Z) : Z := m * 60 * 1000000000.

(** Every duration between a start and an end fits 64 bits. *)
Definition representable (started finished : list (option Z)) : Prop :=
  ∀ i a b, started !! i = Some (Some a) → finished !! i = Some (Some b) →
    - int64_max ≤ b - a ≤ int64_max.

(** A threshold whose nanosecond count fits 64 bits. *)
Definition threshold_fits (m : Z) : bool := fits_int64 (minutes m).

(** Label [c] occurs more than once. *)
Definition repeated (obj : DataFrame) (c : Label) : bool :=
  bool_decide (1 < length (filter (λ p, p.1 = c) (columns obj)))%nat.


End reading.

(** ** Tables and stores used as concrete inputs *)

Module examples.
Import labelling triplegs util.

Definition minute : Z := 60 * 1000000000.

Definition line : Geom := {| geom_type := "LineString"; is_valid := true |}.

(** Three segments; the first lasts twenty minutes, the second ten. *)
Definition segments : DataFrame :=
  {| index := [0; 1; 2];
     columns :=
       [ (LStr "user_id", ColInt [0; 0; 1]);
         (LStr "started_at", ColDatetime (Some "UTC") [Some 0; Some (60 * minute); None]);
         (LStr "finished_at",
          ColDatetime (Some "UTC") [Some (20 * minute); Some (70 * minute); Some (90 * minute)]);
         (LStr "geometry", ColGeometry [Some line; Some line; Some line]);
         (LStr "trip_id", ColInt [7; 7; 8]) ];
     geometry_name := "geometry" |}.


Definition store : heap := {[ 1%positive := segments ]}.

(** The segments with a column [mode] filled in beforehand. *)
Definition labelled : DataFrame :=
  setitem segments "mode" (ColObject [PyStr "car"; PyStr "car"; PyStr "car"]).

Definition labelled_store : heap := {[ 1%positive := labelled ]}.

(** A stand-in for [get_speed_triplegs] that reports the given speeds. *)
Definition speeds (xs : list float) (obj : DataFrame) : result SpeedFrame :=
  Ok {| speed_index := index obj; speed := xs |}.

(** Bounds in descending order. *)
Definition descending : dict := [ (10%float, "a"); (5%float, "b") ].

(** The contract of [Triplegs], and the class as a typed view: it is built
    on the geometry-aware container and declares no fallback class. *)
Definition segment_contract : Contract :=
  {| required_columns := _required_columns;
     timezone_columns := ["started_at"; "finished_at"];
     needs_rows := true |}.

Definition segment_view : TypedView := View "Triplegs" true (check segment_contract) None.

End examples.

(** ** [Triplegs.generate_trips] *)

Module methods.

Section generate_trips.

(** Python values passed as arguments, what the callee returns, and the
    [repr] of a value. *)
Context {V R : Type}.
Variable repr : V → string.

(** Modelled from the spec: [ti.preprocessing.triplegs.generate_trips] is
    not among the sources. It is called with keyword arguments only, so it
    is taken as a function of the keyword arguments it receives. *)
Variable generate_trips_impl : gmap string V → result R.

(** [repr] of a tuple, as an f-string prints [args[1:]]. *)
Definition repr_tuple (xs : list V) : string :=
  "(" +:+ join ", " (repr <$> xs)
  +:+ (if bool_decide (length xs = 1%nat) then "," else "") +:+ ")".

(** The call [f(k1=v1, ..., **kwargs)] with the keywords [given] written
    out: a keyword that [kwargs] holds as well is a [TypeError]. *)
Definition keyword_call (given kwargs : gmap string V) : result R :=
  if bool_decide (given ##ₘ kwargs) then generate_trips_impl (given ∪ kwargs)
  else Raise (TypeError "generate_trips() got multiple values for keyword argument").

(** [Triplegs.generate_trips(self, *args, **kwargs)] *)
Definition generate_trips (self : V) (args : list V) (kwargs : gmap string V)
  : result R :=
  if bool_decide (is_Some (kwargs !! "staypoints")) then
    keyword_call {[ "triplegs" := self ]} kwargs
  else
    py_assert (bool_decide (length args ≤ 1)%nat)
      ("All arguments except 'staypoints' have to be given as keyword arguments. You gave "
       +:+ repr_tuple (tail args) +:+ " as positional arguments.");;
    staypoints ← match args with
                 | x :: _ => Ok x
                 | [] => Raise (IndexError "tuple index out of range")
                 end;
    keyword_call (<[ "staypoints" := staypoints ]> {[ "triplegs" := self ]}) kwargs.

End generate_trips.

End methods.

(** ** Further notions *)

Module notions.
Import triplegs.

(** What [_validate] asks of a table, requirement by requirement. *)
Definition meets (obj : DataFrame) (validate_geometry : bool) : Prop :=
  (0 < (shape obj).1)%nat ∧
  any_missing obj = false ∧
  (∃ col, item obj "started_at" = Ok (Series col) ∧ is_DatetimeTZDtype col = true) ∧
  (∃ col, item obj "finished_at" = Ok (Series col) ∧ is_DatetimeTZDtype col = true) ∧
  (validate_geometry = true →
   ∃ gs, geometry obj = Ok gs ∧ is_valid_all gs = true ∧
     first_geom_type gs = Ok "LineString").

(** The column [c] of the table a call returned. *)
Definition returned_column (out : result loc * heap) (c : string) : result Column :=
  l ← out.1; obj ← deref out.2 l; first_column obj c.

(** A speed that is NaN or plus infinity. *)
Definition unbounded (speed : float) : bool :=
  PrimFloat.is_nan speed || PrimFloat.eqb speed infinity.

(** No key is NaN. *)
Definition nan_free (bounds : list float) : bool :=
  forallb (λ b, negb (PrimFloat.is_nan b)) bounds.

End notions.

(** ** Further concrete inputs *)

Module examples_more.
Import examples.

(** The segments without the column [finished_at], in a store. *)
Definition open_ended : DataFrame := drop segments "finished_at".
Definition open_ended_store : heap := {[ 1%positive := open_ended ]}.

Definition point : Geom := {| geom_type := "Point"; is_valid := true |}.

(** The segments with points for geometries after the first. *)
Definition mixed : DataFrame :=
  setitem segments "geometry" (ColGeometry [Some line; Some point; Some point]).

(** The segments with a point for first geometry. *)
Definition pointed : DataFrame :=
  setitem segments "geometry" (ColGeometry [Some point; Some line; Some line]).

(** The segments without their geometry column. *)
Definition flat : DataFrame := drop segments "geometry".

(** [repr] of a plain string. *)
Definition quoted (s : string) : string := "'" +:+ s +:+ "'".

(** A table built without column names: its labels are integers. *)
Definition numbered : DataFrame :=
  {| index := [0; 1; 2];
     columns :=
       [ (LInt 0, ColInt [0; 0; 1]);
         (LInt 1, ColDatetime (Some "UTC") [Some 0; Some (60 * minute); None]);
         (LInt 2, ColGeometry [Some line; Some line; Some line]) ];
     geometry_name := "geometry" |}.

(** The segments with a second column [started_at] of naive instants. *)
Definition doubled : DataFrame :=
  {| index := index segments;
     columns := columns segments
                ++ [(LStr "started_at", ColDatetime None [Some 0; Some 0; Some 0])];
     geometry_name := "geometry" |}.

(** Naive instants in [started_at]. *)
Definition naive : DataFrame :=
  setitem segments "started_at" (ColDatetime None [Some 0; Some (60 * minute); None]).

(** A stay from the year 1684 to the year 2255: both instants fit 64 bits,
    their difference does not. *)
Definition long_stay : DataFrame :=
  {| index := [0];
     columns :=
       [ (LStr "user_id", ColInt [0]);
         (LStr "started_at", ColDatetime (Some "UTC") [Some (-9000000000000000000)]);
         (LStr "finished_at", ColDatetime (Some "UTC") [Some 9000000000000000000]);
         (LStr "geometry", ColGeometry [Some point]) ];
     geometry_name := "geometry" |}.

Definition long_stay_store : heap := {[ 1%positive := long_stay ]}.

End examples_more.

(** ** The classes and the table of [tests/model/test_util.py] *)

Module fixtures.
Import util.

Definition hour : Z := 60 * examples.minute.

(** [example_positionfixes]: three fixes of two users in the year 1971. *)
Definition example_positionfixes : DataFrame :=
  {| index := [0; 1; 2];
     columns :=
       [ (LStr "user_id", ColInt [0; 0; 1]);
         (LStr "tracked_at",
          ColDatetime (Some "UTC")
            [Some (8760 * hour); Some (8765 * hour); Some (8791 * hour)]);
         (LStr "geometry",
          ColGeometry [Some examples_more.point; Some examples_more.point;
                       Some examples_more.point]) ];
     geometry_name := "geometry" |}.

(** The classes of [TestTrackintelGeoDataFrame]: [A] checks for the column
    [user_id] and declares the fallback class [AFallback], which is built
    on the plain container and brings no check of its own. *)
Definition A_contract : Contract :=
  {| required_columns := ["user_id"]; timezone_columns := []; needs_rows := false |}.

Definition AFallback : TypedView := View "AFallback" false (λ _, Ok true) None.

Definition A : TypedView := View "A" true (check A_contract) (Some AFallback).

(** [A] with [fallback_class] unset. *)
Definition A_unset : TypedView := View "A" true (check A_contract) None.

(** The class [A] of [TestTrackintelDataFrame], on the plain container. *)
Definition A_plain : TypedView := View "A" false (check A_contract) None.

(** The classes of [Test_wrapped_gdf_method], whose checks are constant. *)
Definition B : TypedView := View "B" false (λ _, Ok true) None.

Definition A_const (passes : bool) (fallback : option TypedView) : TypedView :=
  View "A" true (λ _, Ok passes) fallback.

End fixtures.

(** * Results *)

(** ** The order of binary64 numbers *)

Module float64.

Lemma SFcompare_Lt_not_nan x y :
  SFcompare x y = Some Lt → x ≠ S754_nan ∧ y ≠ S754_nan.
Proof. destruct x, y; simpl; intros; split; congruence. Qed.

Lemma SFcompare_refl x : x ≠ S754_nan → SFcompare x x = Some Eq.
Proof.
  destruct x as [s|s| |s m e]; simpl; try congruence; intros _.
  - by destruct s.
  - change (PosDef.Pos.compare_cont Eq m m) with (Pos.compare m m).
    rewrite Z.compare_refl, Pos.compare_refl. by destruct s.
Qed.

Lemma SFcompare_antisym x y : SFcompare y x = CompOpp <$> SFcompare x y.
Proof.
  destruct x as [s1|s1| |s1 m1 e1], y as [s2|s2| |s2 m2 e2]; simpl; try done;
    try (by destruct s1); try (by destruct s2); try (by destruct s1, s2).
  change (PosDef.Pos.compare_cont Eq ?a ?b) with (Pos.compare a b).
  rewrite (Z.compare_antisym e1 e2), (Pos.compare_antisym m1 m2).
  destruct s1, s2; simpl; try done; destruct (e1 ?= e2)%Z; simpl; try done.
Qed.

Lemma SFcompare_Lt_trans x y z :
  SFcompare x y = Some Lt → SFcompare y z = Some Lt → SFcompare x z = Some Lt.
Proof.
  destruct x as [s1|s1| |s1 m1 e1], y as [s2|s2| |s2 m2 e2], z as [s3|s3| |s3 m3 e3];
    simpl; try congruence;
    try (destruct s1; congruence); try (destruct s2; congruence);
    try (destruct s3; congruence);
    try (destruct s1, s2; congruence); try (destruct s2, s3; congruence);
    try (destruct s1, s3; congruence); try (destruct s1, s2, s3; congruence).
  all: change (PosDef.Pos.compare_cont Eq ?a ?b) with (Pos.compare a b).
  all: destruct s1, s2, s3; try congruence.
  all: destruct (Z.compare_spec e1 e2), (Z.compare_spec e2 e3), (Z.compare_spec e1 e3);
    simpl; try congruence; try lia; subst.
  all: destruct (Pos.compare_spec m1 m2), (Pos.compare_spec m2 m3), (Pos.compare_spec m1 m3);
    simpl; try congruence; try lia.
Qed.

(** Numbers that compare equal (as [0.0] and [-0.0] do) compare alike with
    any third. *)
Lemma SFcompare_Eq_r x y z : SFcompare y z = Some Eq → SFcompare x y = SFcompare x z.
Proof.
  destruct y as [s2|s2| |s2 m2 e2], z as [s3|s3| |s3 m3 e3]; simpl; try congruence;
    try (destruct s2; congruence); try (destruct s3; congruence).
  - intros _. by destruct x.
  - destruct s2, s3; try congruence; done.
  - change (PosDef.Pos.compare_cont Eq ?a ?b) with (Pos.compare a b).
    destruct s2, s3; try congruence;
      destruct (Z.compare_spec e2 e3); try congruence; subst;
      destruct (Pos.compare_spec m2 m3); simpl; try congruence; subst; done.
Qed.

Lemma ltb_Lt x y :
  PrimFloat.ltb x y = true ↔ SFcompare (Prim2SF x) (Prim2SF y) = Some Lt.
Proof.
  rewrite ltb_spec. unfold SFltb.
  destruct (SFcompare _ _) as [[]|]; split; congruence.
Qed.

Lemma eqb_Eq x y :
  PrimFloat.eqb x y = true ↔ SFcompare (Prim2SF x) (Prim2SF y) = Some Eq.
Proof.
  rewrite FloatAxioms.eqb_spec. unfold SFeqb.
  destruct (SFcompare _ _) as [[]|]; split; congruence.
Qed.

Lemma ltb_trans x y z :
  PrimFloat.ltb x y = true → PrimFloat.ltb y z = true → PrimFloat.ltb x z = true.
Proof. rewrite !ltb_Lt. apply SFcompare_Lt_trans. Qed.

(** [x < y] excludes [x >= y]. *)
Lemma ltb_not_geb x y : PrimFloat.ltb x y = true → PrimFloat.leb y x = false.
Proof.
  rewrite ltb_Lt, leb_spec. unfold SFleb. intros H.
  by rewrite SFcompare_antisym, H.
Qed.

Lemma ltb_leb x y : PrimFloat.ltb x y = true → PrimFloat.leb x y = true.
Proof. rewrite ltb_Lt, leb_spec. unfold SFleb. intros H. by rewrite H. Qed.

(** [x <= y] excludes [y < x]. *)
Lemma leb_not_gtb x y : PrimFloat.leb x y = true → PrimFloat.ltb y x = false.
Proof.
  rewrite leb_spec, ltb_spec. unfold SFleb, SFltb.
  rewrite (SFcompare_antisym (Prim2SF x) (Prim2SF y)).
  by destruct (SFcompare (Prim2SF x) (Prim2SF y)) as [[]|].
Qed.

(** A number something is below is no NaN: it equals itself. *)
Lemma ltb_eqb_refl x y : PrimFloat.ltb x y = true → PrimFloat.eqb y y = true.
Proof.
  rewrite ltb_Lt, eqb_Eq. intros H.
  apply SFcompare_Lt_not_nan in H as [_ H]. by apply SFcompare_refl.
Qed.

Lemma ltb_leb_refl x y : PrimFloat.ltb x y = true → PrimFloat.leb y y = true.
Proof.
  rewrite ltb_Lt, leb_spec. unfold SFleb. intros H.
  apply SFcompare_Lt_not_nan in H as [_ H]. by rewrite SFcompare_refl.
Qed.

Lemma eqb_ltb_r x y z :
  PrimFloat.eqb y z = true → PrimFloat.ltb x y = PrimFloat.ltb x z.
Proof.
  rewrite eqb_Eq, !ltb_spec. unfold SFltb. intros H.
  by rewrite (SFcompare_Eq_r _ _ _ H).
Qed.

(** Nothing is below NaN, and NaN is below nothing. *)
Lemma ltb_nan_l x : PrimFloat.ltb nan x = false.
Proof. rewrite ltb_spec. reflexivity. Qed.

Lemma ltb_nan_r x : PrimFloat.ltb x nan = false.
Proof.
  rewrite ltb_spec. unfold SFltb. change (Prim2SF nan) with S754_nan.
  by destruct (Prim2SF x).
Qed.

End float64.

(** ** The speed classifier *)

Module labelling_facts.
Import labelling reading float64.

Lemma dict_getitem_middle pre bound name rest speed :
  (∀ k v, (k, v) ∈ pre → PrimFloat.ltb speed k = false) →
  PrimFloat.ltb speed bound = true →
  dict_getitem (pre ++ (bound, name) :: rest) bound = Ok name.
Proof.
  intros Hpre Hlt. induction pre as [|[k v] pre IH]; simpl.
  - by rewrite (ltb_eqb_refl _ _ Hlt).
  - destruct (PrimFloat.eqb k bound) eqn:E.
    + rewrite <- (eqb_ltb_r speed _ _ E) in Hlt.
      rewrite (Hpre k v) in Hlt; [done | left].
    + apply IH. intros k' v' ?. apply (Hpre k' v'). by right.
Qed.

(** The loop, once it has passed the bands [pre] without a match, returns
    the mode of the bands [suf] still ahead. *)
Lemma category_loop_suffix pre suf speed :
  (∀ k v, (k, v) ∈ pre → PrimFloat.ltb speed k = false) →
  category_loop (pre ++ suf) speed (keys suf) = Ok (mode_of suf speed).
Proof.
  revert pre. induction suf as [|[bound name] suf IH]; intros pre Hpre; [done|].
  unfold mode_of. simpl. destruct (PrimFloat.ltb speed bound) eqn:E.
  - by rewrite (dict_getitem_middle _ _ _ _ speed).
  - rewrite (cons_middle _ pre suf), app_assoc. apply IH.
    intros k v [?|Hin]%elem_of_app; [by eapply Hpre|].
    apply list_elem_of_singleton in Hin. by inversion Hin; subst.
Qed.

Lemma category_by_speed_mode_of categories speed :
  category_by_speed categories speed = Ok (mode_of categories speed).
Proof. apply (category_loop_suffix []). intros k v Hin. by apply elem_of_nil in Hin. Qed.

Lemma apply_mode_of categories xs :
  series_apply (category_by_speed categories) xs = Ok (mode_of categories <$> xs).
Proof.
  unfold series_apply. induction xs as [|x xs IH]; [done|].
  cbn. rewrite category_by_speed_mode_of. cbn. by rewrite IH.
Qed.

Lemma first_band_Some categories speed bound name :
  first_band categories speed = Some (bound, name) →
  ∃ pre rest, categories = pre ++ (bound, name) :: rest ∧
    (∀ k v, (k, v) ∈ pre → PrimFloat.ltb speed k = false) ∧
    PrimFloat.ltb speed bound = true.
Proof.
  induction categories as [|[k v] categories IH]; simpl; [done|].
  destruct (PrimFloat.ltb speed k) eqn:E.
  - intros [= -> ->]. exists [], categories. split_and!; [done| |done].
    intros ?? Hin. by apply elem_of_nil in Hin.
  - intros (pre & rest & -> & Hpre & Hlt)%IH.
    exists ((k, v) :: pre), rest. split_and!; [done| |done].
    intros k' v' [[= -> ->]|?]%elem_of_cons; [done|by eapply Hpre].
Qed.

Lemma first_band_None categories speed :
  first_band categories speed = None ↔ above_all categories speed.
Proof.
  unfold above_all. induction categories as [|[k v] categories IH]; simpl.
  - split; [|done]. intros _ b Hin. by apply elem_of_nil in Hin.
  - destruct (PrimFloat.ltb speed k) eqn:E.
    + split; [done|]. intros H. rewrite H in E; [done|left].
    + rewrite IH. split.
      * intros H b [->|?]%elem_of_cons; [done|by apply H].
      * intros H b ?. apply H. by right.
Qed.

Lemma ascending_cons a rest :
  strictly_ascending (a :: rest) = true →
  strictly_ascending rest = true ∧ Forall (λ b, PrimFloat.ltb a b = true) rest.
Proof.
  revert a. induction rest as [|b rest IH]; intros a; [done|].
  intros [Hab Hrest]%andb_prop. split; [done|].
  destruct (IH b Hrest) as [_ Hall]. constructor; [done|].
  eapply Forall_impl; [exact Hall|]. intros c Hbc. by eapply ltb_trans.
Qed.

Lemma ascending_middle pre a rest :
  strictly_ascending (pre ++ a :: rest) = true →
  Forall (λ b, PrimFloat.ltb a b = true) rest.
Proof.
  induction pre as [|p pre IH]; [apply ascending_cons|].
  intros [H _]%ascending_cons. by apply IH.
Qed.

(** Among ascending bounds, the first band that exceeds the speed is the
    one with the least such bound. *)
Lemma first_band_least categories speed bound name :
  strictly_ascending (keys categories) = true →
  first_band categories speed = Some (bound, name) →
  ∀ bound' name', (bound', name') ∈ categories →
    PrimFloat.ltb speed bound' = true → PrimFloat.leb bound bound' = true.
Proof.
  intros Hasc (pre & rest & -> & Hpre & Hlt)%first_band_Some bound' name' Hin Hlt'.
  apply elem_of_app in Hin as [Hin|Hin].
  { by rewrite (Hpre _ _ Hin) in Hlt'. }
  apply elem_of_cons in Hin as [[= -> ->]|Hin]; [by eapply ltb_leb_refl|].
  apply ltb_leb. unfold keys in Hasc. rewrite fmap_app, fmap_cons in Hasc.
  apply ascending_middle in Hasc. rewrite Forall_forall in Hasc.
  apply Hasc. apply list_elem_of_fmap. by exists (bound', name').
Qed.

Lemma ascending_nth bounds i :
  strictly_ascending bounds = true → (i + 1 < length bounds)%nat →
  PrimFloat.ltb (nth i bounds nan) (nth (i + 1) bounds nan) = true.
Proof.
  revert i. induction bounds as [|a bounds IH]; intros i Hasc Hi; simpl in Hi; [lia|].
  destruct bounds as [|b bounds]; simpl in Hi; [lia|].
  apply andb_prop in Hasc as [Hab Hrest].
  destruct i as [|i]; [done|]. apply (IH i Hrest). simpl. lia.
Qed.

Lemma foldl_correct (P : nat → bool) (l : list nat) init :
  foldl (λ (correct : bool) i, if P i then false else correct) init l
  = init && forallb (λ i, negb (P i)) l.
Proof.
  revert init. induction l as [|i l IH]; intros init; simpl.
  - by rewrite andb_true_r.
  - rewrite IH. destruct (P i), init; simpl; try done.
Qed.

(** What [_check_categories] computes: no bound is at or above its
    successor. *)
Lemma check_categories_spec cat :
  _check_categories cat = true ↔
  ∀ i, (i + 1 < length (keys cat))%nat →
    PrimFloat.leb (nth (i + 1) (keys cat) nan) (nth i (keys cat) nan) = false.
Proof.
  unfold _check_categories.
  rewrite (foldl_correct (λ i, PrimFloat.leb (nth (i + 1) (keys cat) nan) (nth i (keys cat) nan))).
  simpl. rewrite forallb_forall. split.
  - intros H i Hi. apply negb_true_iff, H, in_seq. lia.
  - intros H i Hi%in_seq. apply negb_true_iff, H. lia.
Qed.

Lemma ascending_check cat :
  strictly_ascending (keys cat) = true → _check_categories cat = true.
Proof.
  intros Hasc. apply check_categories_spec. intros i Hi.
  by apply ltb_not_geb, ascending_nth.
Qed.

(** *** Tables and the store *)

Lemma label_eqb_eq a b : label_eqb a b = true ↔ a = b.
Proof.
  destruct a as [s|z], b as [s'|z']; simpl; try (split; done).
  - rewrite String.eqb_eq. split; [by intros ->|by intros [= ->]].
  - rewrite Z.eqb_eq. split; [by intros ->|by intros [= ->]].
Qed.

Lemma label_eqb_refl a : label_eqb a a = true.
Proof. by apply label_eqb_eq. Qed.

Lemma label_eqb_neq a b : label_eqb a b = false ↔ a ≠ b.
Proof. rewrite <- label_eqb_eq. by destruct (label_eqb a b). Qed.

Lemma label_eqb_sym a b : label_eqb a b = label_eqb b a.
Proof.
  destruct (label_eqb b a) eqn:E.
  - apply label_eqb_eq in E as ->. apply label_eqb_refl.
  - apply label_eqb_neq in E. apply label_eqb_neq. congruence.
Qed.

Lemma assoc_set_same cols c col : assoc (assoc_set cols c col) c = Some col.
Proof.
  induction cols as [|[c' col'] cols IH]; simpl.
  - by rewrite label_eqb_refl.
  - destruct (label_eqb c' c) eqn:E; simpl; by rewrite E.
Qed.

Lemma assoc_replace_all_other cols c col c' :
  c' ≠ c → assoc (replace_all cols c col) c' = assoc cols c'.
Proof.
  intros Hne. induction cols as [|[c0 col0] cols IH]; [done|].
  unfold replace_all in *. rewrite fmap_cons. simpl.
  destruct (label_eqb c0 c) eqn:E; simpl; rewrite IH; [|done].
  apply label_eqb_eq in E as ->.
  by assert (label_eqb c c' = false) as -> by (apply label_eqb_neq; congruence).
Qed.

Lemma assoc_set_other cols c col c' :
  c' ≠ c → assoc (assoc_set cols c col) c' = assoc cols c'.
Proof.
  intros Hne.
  assert (label_eqb c c' = false) as Hcc by (apply label_eqb_neq; congruence).
  induction cols as [|[c0 col0] cols IH]; simpl.
  - by rewrite Hcc.
  - destruct (label_eqb c0 c) eqn:E; simpl; [|by rewrite IH].
    apply label_eqb_eq in E as ->. rewrite Hcc. by apply assoc_replace_all_other.
Qed.

Lemma assoc_set_new cols c col :
  c ∉ cols.*1 → assoc_set cols c col = cols ++ [(c, col)].
Proof.
  induction cols as [|[c' col'] cols IH]; simpl; [done|].
  intros [Hne Hnin]%not_elem_of_cons.
  assert (label_eqb c' c = false) as -> by (apply label_eqb_neq; congruence).
  by rewrite IH.
Qed.

Lemma first_column_setitem obj c col : first_column (setitem obj c col) c = Ok col.
Proof. unfold first_column, setitem. simpl. by rewrite assoc_set_same. Qed.

Lemma first_column_setitem_other obj c col c' :
  c' ≠ c → first_column (setitem obj c col) c' = first_column obj c'.
Proof. intros Hne. unfold first_column, setitem. simpl. by rewrite assoc_set_other. Qed.

Lemma replace_all_labels cols c col : (replace_all cols c col).*1 = cols.*1.
Proof.
  unfold replace_all. induction cols as [|[c' col'] cols IH]; [done|].
  rewrite !fmap_cons, IH. simpl. by destruct (label_eqb c' c).
Qed.

Lemma assoc_set_labels cols c col :
  c ∈ cols.*1 → (assoc_set cols c col).*1 = cols.*1.
Proof.
  induction cols as [|[c' col'] cols IH]; simpl.
  - intros H. by apply elem_of_nil in H.
  - destruct (label_eqb c' c) eqn:E.
    + intros _. rewrite fmap_cons. simpl. f_equal. apply replace_all_labels.
    + intros [->|Hin]%elem_of_cons; [by rewrite label_eqb_refl in E|].
      rewrite fmap_cons. simpl. f_equal. by apply IH.
Qed.

(** Setting a column leaves what stands under every other label alone. *)
Lemma filter_replace_all_other cols c col (c' : Label) :
  c' ≠ c →
  filter (λ p : Label * Column, p.1 = c') (replace_all cols c col)
  = filter (λ p : Label * Column, p.1 = c') cols.
Proof.
  intros Hne. unfold replace_all. induction cols as [|[c0 col0] cols IH]; [done|].
  rewrite fmap_cons, !filter_cons, IH. simpl.
  destruct (label_eqb c0 c) eqn:E; simpl; [|done].
  apply label_eqb_eq in E as ->. by rewrite !decide_False by congruence.
Qed.

Lemma filter_assoc_set_other cols c col (c' : Label) :
  c' ≠ c →
  filter (λ p : Label * Column, p.1 = c') (assoc_set cols c col)
  = filter (λ p : Label * Column, p.1 = c') cols.
Proof.
  intros Hne. induction cols as [|[c0 col0] cols IH]; simpl.
  - rewrite filter_cons. simpl. by rewrite decide_False by congruence.
  - destruct (label_eqb c0 c) eqn:E.
    + apply label_eqb_eq in E as ->. rewrite !filter_cons. simpl.
      rewrite !decide_False by congruence. by apply filter_replace_all_other.
    + rewrite !filter_cons. simpl. rewrite IH. by destruct (decide (c0 = c')).
Qed.

Lemma item_setitem_other obj c col (c' : Label) :
  c' ≠ c → item (setitem obj c col) c' = item obj c'.
Proof. intros Hne. unfold item, setitem. simpl. by rewrite filter_assoc_set_other. Qed.

Lemma extended_by_setitem obj (c : string) col : extended_by c obj (setitem obj c col).
Proof.
  split_and!; [done|done| |].
  - intros c' Hne. split; [by apply item_setitem_other|by apply first_column_setitem_other].
  - exists col. unfold has_column. split_and!; [apply first_column_setitem| |].
    + intros Hnin%bool_decide_eq_false. by apply assoc_set_new.
    + intros Hin%bool_decide_eq_true. by apply assoc_set_labels.
Qed.

Lemma lookup_fresh (h : heap) : h !! fresh (dom h) = None.
Proof. apply not_elem_of_dom, is_fresh. Qed.

Lemma deref_insert (h : heap) l obj : deref (<[l := obj]> h) l = Ok obj.
Proof. unfold deref. by rewrite lookup_insert_eq. Qed.

Lemma assigned_modes_insert (h : heap) l obj col :
  assigned_modes (Ok l, <[l := setitem obj "mode" col]> h) = Ok col.
Proof.
  unfold assigned_modes. cbn. rewrite deref_insert. cbn. apply first_column_setitem.
Qed.

(** *** What the two functions do to the store *)

Section store.

Variable get_speed_triplegs : DataFrame → result SpeedFrame.

(** The call of the classifier goes one of three ways: it raises before
    the copy, it raises after the copy, or it returns the copy with the
    column [mode] set. *)
Lemma predict_simple_coarse_cases h l categories :
  let out := _predict_transport_mode_simple_coarse get_speed_triplegs h l categories in
  (∃ e, out = (Raise e, h)) ∨
  (∃ e obj, h !! l = Some obj ∧ out = (Raise e, <[fresh (dom h) := obj]> h)) ∨
  (∃ obj values, h !! l = Some obj ∧
     out = (Ok (fresh (dom h)),
            <[fresh (dom h) := setitem obj "mode" (ColObject values)]> h)).
Proof.
  intros out. subst out.
  destruct (_predict_transport_mode_simple_coarse _ _ _ _) as [r h'] eqn:E.
  revert E. unfold _predict_transport_mode_simple_coarse, copy, deref at 1.
  destruct (_check_categories categories); simpl;
    [|intros [= <- <-]; left; by eexists].
  destruct (h !! l) as [obj|] eqn:Hl; simpl;
    [|intros [= <- <-]; left; by eexists].
  rewrite deref_insert. cbn.
  destruct (get_speed_triplegs obj) as [sf|e]; cbn;
    [|intros [= <- <-]; right; left; by eexists _, _].
  destruct (series_apply _ _) as [modes|e]; cbn;
    [|intros [= <- <-]; right; left; by eexists _, _].
  destruct (align _ _ _) as [values|e]; cbn;
    [|intros [= <- <-]; right; left; by eexists _, _].
  intros [= <- <-]. right; right. exists obj, values. by rewrite insert_insert_eq.
Qed.

Lemma predict_simple_coarse_returns h l obj sf categories :
  _check_categories categories = true →
  h !! l = Some obj →
  get_speed_triplegs obj = Ok sf →
  speed_index sf = index obj →
  _predict_transport_mode_simple_coarse get_speed_triplegs h l categories
  = (Ok (fresh (dom h)),
     <[fresh (dom h) := setitem obj "mode" (ColObject (mode_of categories <$> speed sf))]> h).
Proof.
  intros Hcheck Hl Hsf Hindex.
  unfold _predict_transport_mode_simple_coarse, copy, deref at 1.
  rewrite Hcheck, Hl. simpl. rewrite deref_insert. cbn.
  rewrite Hsf. cbn. rewrite apply_mode_of. cbn.
  unfold align. rewrite bool_decide_eq_true_2 by done. cbn.
  by rewrite insert_insert_eq.
Qed.

Lemma predict_modes h l obj sf categories :
  _check_categories categories = true →
  h !! l = Some obj →
  get_speed_triplegs obj = Ok sf →
  speed_index sf = index obj →
  assigned_modes
    (predict_transport_mode get_speed_triplegs h l "simple-coarse" (Some categories))
  = Ok (ColObject (mode_of categories <$> speed sf)).
Proof.
  intros. unfold predict_transport_mode. simpl.
  erewrite predict_simple_coarse_returns by done.
  apply assigned_modes_insert.
Qed.

End store.

(** [create_activity_flag] either raises and leaves the store alone, or
    sets a column of the object passed in and returns that object. *)
Lemma create_activity_flag_cases h sp method time_threshold name :
  let out := create_activity_flag h sp method time_threshold name in
  (∃ e, out = (Raise e, h)) ∨
  (∃ obj flag, h !! sp = Some obj ∧
     out = (Ok sp, <[sp := setitem obj name flag]> h)).
Proof.
  intros out. subst out.
  destruct (create_activity_flag _ _ _ _ _) as [r h'] eqn:E.
  revert E. unfold create_activity_flag, deref.
  destruct (String.eqb method "time_threshold");
    [|intros [= <- <-]; left; by eexists].
  destruct (h !! sp) as [obj|]; cbn; [|intros [= <- <-]; left; by eexists].
  destruct (item obj "finished_at") as [fin|e]; cbn;
    [|intros [= <- <-]; left; by eexists].
  destruct (item obj "started_at") as [sta|e]; cbn;
    [|intros [= <- <-]; left; by eexists].
  destruct (selection_sub fin sta) as [d|e]; cbn;
    [|intros [= <- <-]; left; by eexists].
  destruct (timedelta_minutes time_threshold) as [delta|e]; cbn;
    [|intros [= <- <-]; left; by eexists].
  destruct (column_gt d delta) as [flag|e]; cbn;
    [|intros [= <- <-]; left; by eexists].
  intros [= <- <-]. right. by exists obj, flag.
Qed.

(** *** The default bands on three speeds *)

(** C1, as amended: for the speeds 2.0, 30.0 and 200.0 m/s,
    [predict_transport_mode] with the method simple-coarse and the default
    bands assigns slow_mobility, fast_mobility and fast_mobility to the
    three rows, in this order. *)
Theorem predict_transport_mode_three_speeds
    (get_speed_triplegs : DataFrame → result SpeedFrame) (h : heap) l obj :
  h !! l = Some obj →
  get_speed_triplegs obj
    = Ok {| speed_index := index obj; speed := [2.0; 30.0; 200.0]%float |} →
  assigned_modes (predict_transport_mode get_speed_triplegs h l "simple-coarse" None)
  = Ok (ColObject [PyStr "slow_mobility"; PyStr "fast_mobility"; PyStr "fast_mobility"]).
Proof.
  intros Hl Hsf. unfold predict_transport_mode. simpl.
  erewrite predict_simple_coarse_returns; [|reflexivity|exact Hl|exact Hsf|reflexivity].
  rewrite assigned_modes_insert. reflexivity.
Qed.

Lemma predict_transport_mode_three_speeds_witness :
  examples.store !! 1%positive = Some examples.segments ∧
  assigned_modes
    (predict_transport_mode (examples.speeds [2.0; 30.0; 200.0]%float)
       examples.store 1%positive "simple-coarse" None)
  = Ok (ColObject [PyStr "slow_mobility"; PyStr "fast_mobility"; PyStr "fast_mobility"]).
Proof.
  split; [reflexivity|].
  apply (predict_transport_mode_three_speeds _ _ _ examples.segments); reflexivity.
Defined.

(** C1, as stated, fails: the first row, at 2.0 m/s, is below the first
    bound 15/3.6 and is not given motorized_mobility. *)
Lemma predict_transport_mode_three_speeds_not_motorized :
  assigned_modes
    (predict_transport_mode (examples.speeds [2.0; 30.0; 200.0]%float)
       examples.store 1%positive "simple-coarse" None)
  ≠ Ok (ColObject [PyStr "motorized_mobility"; PyStr "fast_mobility"; PyStr "fast_mobility"]).
Proof.
  unfold predict_transport_mode. simpl.
  erewrite (predict_simple_coarse_returns _ _ _ examples.segments); [|reflexivity..].
  rewrite assigned_modes_insert. vm_compute. discriminate.
Qed.

(** *** The first band that exceeds the speed *)

(** C5: with strictly ascending upper bounds, the classifier gives every
    speed the category of the first band whose bound exceeds it: the check
    of the bounds passes, [category_by_speed] returns that band's category,
    that band has the least bound above the speed, and the column [mode]
    holds these categories row by row. *)
Theorem simple_coarse_first_band
    (get_speed_triplegs : DataFrame → result SpeedFrame) (categories : dict) :
  strictly_ascending (keys categories) = true →
  _check_categories categories = true ∧
  (∀ speed, category_by_speed categories speed = Ok (mode_of categories speed)) ∧
  (∀ speed bound name, first_band categories speed = Some (bound, name) →
     (bound, name) ∈ categories ∧
     PrimFloat.ltb speed bound = true ∧
     ∀ bound' name', (bound', name') ∈ categories →
       PrimFloat.ltb speed bound' = true → PrimFloat.leb bound bound' = true) ∧
  (∀ (h : heap) l obj sf,
     h !! l = Some obj →
     get_speed_triplegs obj = Ok sf →
     speed_index sf = index obj →
     assigned_modes
       (predict_transport_mode get_speed_triplegs h l "simple-coarse" (Some categories))
     = Ok (ColObject (mode_of categories <$> speed sf))).
Proof.
  intros Hasc. split_and!.
  - by apply ascending_check.
  - apply category_by_speed_mode_of.
  - intros speed bound name Hfirst. split_and!.
    + apply first_band_Some in Hfirst as (pre & rest & -> & _ & _).
      apply elem_of_app. right. left.
    + by apply first_band_Some in Hfirst as (pre & rest & _ & _ & ?).
    + by eapply first_band_least.
  - intros h l obj sf Hl Hsf Hindex.
    by apply (predict_modes _ _ _ obj); [apply ascending_check|..].
Qed.

Lemma simple_coarse_first_band_witness :
  strictly_ascending (keys default_categories) = true ∧
  category_by_speed default_categories 30 = Ok (PyStr "fast_mobility").
Proof.
  split; [reflexivity|].
  destruct (simple_coarse_first_band (examples.speeds []) default_categories eq_refl)
    as (_ & H & _).
  rewrite H. reflexivity.
Defined.

(** *** No band exceeds the speed *)

(** C10, as amended: for every categories mapping that passes the check of
    its bounds and every row whose speed is below no bound (a speed at or
    above every bound is one, a NaN speed another), the classifier returns
    no category: [category_by_speed] returns [None], the call returns, and
    in the column [mode] of the table returned, which has an entry for
    every speed, the row's entry is [None]. *)
Theorem simple_coarse_no_band
    (get_speed_triplegs : DataFrame → result SpeedFrame) (categories : dict) :
  _check_categories categories = true →
  (∀ speed, above_all categories speed → category_by_speed categories speed = Ok PyNone) ∧
  (∀ speed, (∀ bound, bound ∈ keys categories → PrimFloat.leb bound speed = true) →
     above_all categories speed) ∧
  above_all categories nan ∧
  (∀ (h : heap) l obj sf,
     h !! l = Some obj →
     get_speed_triplegs obj = Ok sf →
     speed_index sf = index obj →
     ∃ values,
       assigned_modes
         (predict_transport_mode get_speed_triplegs h l "simple-coarse" (Some categories))
       = Ok (ColObject values) ∧
       length values = length (speed sf) ∧
       ∀ i v, speed sf !! i = Some v → above_all categories v →
         values !! i = Some PyNone).
Proof.
  intros Hcheck. split_and!.
  - intros speed Habove. rewrite category_by_speed_mode_of. unfold mode_of.
    by apply first_band_None in Habove as ->.
  - intros speed Hle bound Hin. by apply leb_not_gtb, Hle.
  - intros bound _. apply ltb_nan_l.
  - intros h l obj sf Hl Hsf Hindex. exists (mode_of categories <$> speed sf).
    split_and!.
    + by apply (predict_modes _ _ _ obj).
    + apply length_fmap.
    + intros i v Hi Habove. rewrite list_lookup_fmap, Hi. simpl.
      unfold mode_of. by apply first_band_None in Habove as ->.
Qed.

Lemma simple_coarse_no_band_witness :
  _check_categories [(10%float, "slow")] = true ∧
  category_by_speed [(10%float, "slow")] 10 = Ok PyNone.
Proof.
  split; [reflexivity|].
  destruct (simple_coarse_no_band (examples.speeds []) [(10%float, "slow")] eq_refl)
    as (H & _).
  apply H. intros bound Hin. apply list_elem_of_singleton in Hin. by subst.
Defined.

(** C10, as stated, fails: bounds in descending order are refused with a
    [ValueError], also when the speed of the row is below no bound. *)
Lemma simple_coarse_descending_raises :
  above_all examples.descending 20 ∧
  predict_transport_mode (examples.speeds [20%float]) examples.store 1%positive
    "simple-coarse" (Some examples.descending)
  = (Raise (ValueError "the categories must be in increasing order"), examples.store).
Proof.
  split; [|reflexivity].
  intros bound Hin. unfold examples.descending in Hin. simpl in Hin.
  apply elem_of_cons in Hin as [->|Hin]; [reflexivity|].
  apply list_elem_of_singleton in Hin. by subst.
Qed.

(** *** The duration threshold *)

Lemma checked_representable started finished :
  representable started finished →
  checked (zip_with sub_cells finished started)
  = Ok (zip_with sub_cells finished started).
Proof.
  intros Hrep. unfold checked.
  rewrite (proj2 (forallb_forall _ _)); [done|].
  intros d Hin%list_elem_of_In. apply list_elem_of_lookup in Hin as [i Hi].
  rewrite lookup_zip_with in Hi.
  destruct (finished !! i) as [f|] eqn:Hf; simpl in Hi; [|done].
  destruct (started !! i) as [s|] eqn:Hs; simpl in Hi; [|done].
  injection Hi as <-. destruct f as [b|], s as [a|]; simpl; try done.
  apply bool_decide_eq_true. by apply (Hrep i).
Qed.

(** A threshold that fits is a [timedelta], and one that pandas takes. *)
Lemma threshold_fits_bound m :
  threshold_fits m = true → - int64_max ≤ m * 60 * 1000000000 ≤ int64_max.
Proof. unfold threshold_fits, fits_int64, minutes. by intros ?%bool_decide_eq_true. Qed.

Lemma timedelta_minutes_fits m :
  threshold_fits m = true → timedelta_minutes m = Ok (minutes m).
Proof.
  intros H%threshold_fits_bound. unfold timedelta_minutes, int64_max in *.
  rewrite bool_decide_eq_true_2; [done|].
  apply Z.abs_le. split.
  - apply Z.div_le_lower_bound; lia.
  - apply Z.div_le_upper_bound; lia.
Qed.

Lemma column_gt_fits m xs :
  threshold_fits m = true →
  column_gt (ColTimedelta xs) (minutes m)
  = Ok (ColBool ((λ x, from_option (λ d, bool_decide (minutes m < d)) false x) <$> xs)).
Proof.
  intros H%threshold_fits_bound. unfold column_gt, fits_int64, minutes, int64_max in *.
  rewrite bool_decide_eq_true_2; [done|]. split.
  - apply Z.div_le_lower_bound; lia.
  - apply Z.div_le_upper_bound; lia.
Qed.

(** What a call that returns has done, and what makes a call return. *)
Lemma create_activity_flag_inv h sp method t name l h' :
  create_activity_flag h sp method t name = (Ok l, h') →
  ∃ obj fin sta d delta flag,
    method = "time_threshold" ∧ h !! sp = Some obj ∧
    item obj "finished_at" = Ok fin ∧ item obj "started_at" = Ok sta ∧
    selection_sub fin sta = Ok d ∧ timedelta_minutes t = Ok delta ∧
    column_gt d delta = Ok flag ∧
    l = sp ∧ h' = <[sp := setitem obj name flag]> h.
Proof.
  unfold create_activity_flag, deref.
  destruct (String.eqb method "time_threshold") eqn:Hm; [|done].
  apply String.eqb_eq in Hm.
  destruct (h !! sp) as [obj|] eqn:Hsp; cbn; [|done].
  destruct (item obj "finished_at") as [fin|e] eqn:Hfin; cbn; [|done].
  destruct (item obj "started_at") as [sta|e] eqn:Hsta; cbn; [|done].
  destruct (selection_sub fin sta) as [d|e] eqn:Hd; cbn; [|done].
  destruct (timedelta_minutes t) as [delta|e] eqn:Hdelta; cbn; [|done].
  destruct (column_gt d delta) as [flag|e] eqn:Hflag; cbn; [|done].
  intros [= <- <-]. by exists obj, fin, sta, d, delta, flag.
Qed.

Lemma create_activity_flag_intro h sp t name obj fin sta d delta flag :
  h !! sp = Some obj →
  item obj "finished_at" = Ok fin → item obj "started_at" = Ok sta →
  selection_sub fin sta = Ok d → timedelta_minutes t = Ok delta →
  column_gt d delta = Ok flag →
  create_activity_flag h sp "time_threshold" t name
  = (Ok sp, <[sp := setitem obj name flag]> h).
Proof.
  intros Hsp Hfin Hsta Hd Hdelta Hflag. unfold create_activity_flag, deref. simpl.
  rewrite Hsp. cbn. rewrite Hfin. cbn. rewrite Hsta. cbn. rewrite Hd. cbn.
  rewrite Hdelta. cbn. by rewrite Hflag.
Qed.

Lemma returned_column_insert (h : heap) l obj (c : string) col :
  notions.returned_column (Ok l, <[l := setitem obj c col]> h) c = Ok col.
Proof.
  unfold notions.returned_column. cbn. rewrite deref_insert. cbn.
  apply first_column_setitem.
Qed.

(** C6, as amended: on a staypoints table whose columns [started_at] and
    [finished_at] hold zone-aware instants, with every duration between
    them within the range of 64-bit nanosecond counts,
    [create_activity_flag] with the method time_threshold and a threshold
    of 15 returns the table with the activity column set, and in that
    column the flag of a row is true exactly when its duration exceeds 15
    minutes; a row of 20 minutes is flagged true and a row of 10 minutes
    false. *)
Theorem create_activity_flag_time_threshold
    (h : heap) sp obj tz tz' (started finished : list (option Z)) (name : string) :
  h !! sp = Some obj →
  item obj "started_at" = Ok (Series (ColDatetime (Some tz) started)) →
  item obj "finished_at" = Ok (Series (ColDatetime (Some tz') finished)) →
  representable started finished →
  ∃ flags,
    create_activity_flag h sp "time_threshold" 15 name
    = (Ok sp, <[sp := setitem obj name (ColBool flags)]> h) ∧
    notions.returned_column (create_activity_flag h sp "time_threshold" 15 name) name
    = Ok (ColBool flags) ∧
    (∀ i s f, started !! i = Some s → finished !! i = Some f →
       ∃ flag, flags !! i = Some flag ∧ (flag = true ↔ exceeds_minutes 15 s f)) ∧
    (∀ i a, started !! i = Some (Some a) →
       finished !! i = Some (Some (a + minutes 20)) →
       flags !! i = Some true) ∧
    (∀ i a, started !! i = Some (Some a) →
       finished !! i = Some (Some (a + minutes 10)) →
       flags !! i = Some false).
Proof.
  intros Hsp Hsta Hfin Hrep.
  assert (create_activity_flag h sp "time_threshold" 15 name
          = (Ok sp, <[sp := setitem obj name
               (ColBool ((λ x, from_option (λ d, bool_decide (minutes 15 < d)) false x)
                         <$> zip_with sub_cells finished started))]> h)) as Hcall.
  { eapply create_activity_flag_intro; [done|done|done| |by apply timedelta_minutes_fits|
      by apply column_gt_fits].
    simpl. by rewrite checked_representable. }
  eexists. split; [exact Hcall|]. split_and!.
  - rewrite Hcall. apply returned_column_insert.
  - intros i s f Hs Hf. rewrite list_lookup_fmap, lookup_zip_with, Hf. simpl.
    rewrite Hs. simpl. eexists. split; [reflexivity|].
    unfold exceeds_minutes, minutes.
    destruct s as [a|], f as [b|]; simpl.
    + rewrite bool_decide_eq_true. split.
      * intros ?. by exists a, b.
      * by intros (a' & b' & [= <-] & [= <-] & ?).
    + split; [done|]. by intros (a' & b' & _ & ? & _).
    + split; [done|]. by intros (a' & b' & ? & _ & _).
    + split; [done|]. by intros (a' & b' & ? & _ & _).
  - intros i a Hs Hf. rewrite list_lookup_fmap, lookup_zip_with, Hf. simpl.
    rewrite Hs. simpl. f_equal. apply bool_decide_eq_true.
    unfold minutes. lia.
  - intros i a Hs Hf. rewrite list_lookup_fmap, lookup_zip_with, Hf. simpl.
    rewrite Hs. simpl. f_equal. apply bool_decide_eq_false.
    unfold minutes. lia.
Qed.

Lemma segments_representable :
  representable [Some 0; Some (60 * examples.minute); None]
    [Some (20 * examples.minute); Some (70 * examples.minute); Some (90 * examples.minute)].
Proof.
  intros [|[|[|i]]] a b; simpl; try done; intros [= <-] [= <-]; vm_compute;
    split; discriminate.
Qed.

Lemma create_activity_flag_time_threshold_witness :
  examples.store !! 1%positive = Some examples.segments ∧
  ∃ flags,
    notions.returned_column
      (create_activity_flag examples.store 1%positive "time_threshold" 15 "is_activity")
      "is_activity"
    = Ok (ColBool flags) ∧
    flags !! 0%nat = Some true ∧ flags !! 1%nat = Some false.
Proof.
  split; [reflexivity|].
  destruct (create_activity_flag_time_threshold examples.store 1%positive
              examples.segments "UTC" "UTC" _ _ "is_activity"
              eq_refl eq_refl eq_refl segments_representable)
    as (flags & _ & Hcol & _ & Htrue & Hfalse).
  exists flags. split_and!; [exact Hcol| |].
  - by apply (Htrue 0%nat 0).
  - by apply (Hfalse 1%nat (60 * examples.minute)).
Defined.

(** C6, as stated, fails: a stay from 1684 to 2255 lasts more than 15
    minutes, but the difference of its two instants is outside the range
    of 64-bit nanosecond counts; the call raises an [OverflowError] and no
    flag is set. *)
Lemma create_activity_flag_overflow :
  exceeds_minutes 15 (Some (-9000000000000000000)) (Some 9000000000000000000) ∧
  create_activity_flag examples_more.long_stay_store 1%positive
    "time_threshold" 15 "is_activity"
  = (Raise (OverflowError "Overflow in int64 addition"), examples_more.long_stay_store).
Proof.
  split; [|reflexivity].
  eexists _, _. split_and!; [reflexivity|reflexivity|]. vm_compute. reflexivity.
Qed.

(** *** Unsupported methods *)

(** C8: for every method name other than the supported one the call raises
    an [AttributeError] and the store is as it was: no table is changed and
    none is returned. *)
Theorem unsupported_method_raises
    (get_speed_triplegs : DataFrame → result SpeedFrame) (h : heap) l
    (method : string) categories time_threshold name :
  (method ≠ "simple-coarse" →
   predict_transport_mode get_speed_triplegs h l method categories
   = (Raise (AttributeError
        ("Method " +:+ method +:+ " not known for predicting tripleg transport modes.")),
      h)) ∧
  (method ≠ "time_threshold" →
   create_activity_flag h l method time_threshold name
   = (Raise (AttributeError
        ("Method " +:+ method +:+ " not known for creating activity flag.")),
      h)).
Proof.
  split; intros Hne%String.eqb_neq.
  - unfold predict_transport_mode. by rewrite Hne.
  - unfold create_activity_flag. by rewrite Hne.
Qed.

Lemma unsupported_method_raises_witness :
  predict_transport_mode (examples.speeds []) examples.store 1%positive "fine" None
  = (Raise (AttributeError
       "Method fine not known for predicting tripleg transport modes."),
     examples.store) ∧
  create_activity_flag examples.store 1%positive "fine" 15 "is_activity"
  = (Raise (AttributeError "Method fine not known for creating activity flag."),
     examples.store).
Proof.
  destruct (unsupported_method_raises (examples.speeds []) examples.store 1%positive
              "fine" None 15 "is_activity") as [Hp Hc].
  split; [apply Hp|apply Hc]; discriminate.
Defined.

(** *** Copy against write in place *)

(** C9, as amended: [predict_transport_mode] leaves every object of the
    store as it was, the table it is given among them; what it returns is a
    new object, the given table with the column [mode] set (added when the
    table has none, replaced when it has one), every other column and every
    row as they were. [create_activity_flag] returns the very object it is
    given, and that object now carries the activity column. *)
Theorem predict_copies_flag_writes
    (get_speed_triplegs : DataFrame → result SpeedFrame) (h : heap) l :
  (∀ method categories,
     let out := predict_transport_mode get_speed_triplegs h l method categories in
     (∀ l0 obj0, h !! l0 = Some obj0 → out.2 !! l0 = Some obj0) ∧
     (∀ l', out.1 = Ok l' →
        h !! l' = None ∧
        ∃ obj obj', h !! l = Some obj ∧ out.2 = <[l' := obj']> h ∧
          extended_by "mode" obj obj')) ∧
  (∀ method time_threshold name,
     let out := create_activity_flag h l method time_threshold name in
     ∀ l', out.1 = Ok l' →
        l' = l ∧
        ∃ obj obj', h !! l = Some obj ∧ out.2 = <[l := obj']> h ∧
          extended_by name obj obj').
Proof.
  split.
  - intros method categories out. subst out. unfold predict_transport_mode.
    destruct (String.eqb method "simple-coarse"); [|by split].
    destruct (predict_simple_coarse_cases get_speed_triplegs h l
                (default default_categories categories))
      as [[e ->]|[(e & obj & Hl & ->)|(obj & values & Hl & ->)]]; simpl.
    + by split.
    + split; [|done]. intros l0 obj0 Hl0. rewrite lookup_insert_ne; [done|].
      intros <-. by rewrite lookup_fresh in Hl0.
    + split.
      * intros l0 obj0 Hl0. rewrite lookup_insert_ne; [done|].
        intros <-. by rewrite lookup_fresh in Hl0.
      * intros l' [= <-]. split; [apply lookup_fresh|].
        eexists _, _. split_and!; [done..|apply extended_by_setitem].
  - intros method time_threshold name out. subst out.
    destruct (create_activity_flag_cases h l method time_threshold name)
      as [[e ->]|(obj & flag & Hl & ->)]; simpl; [done|].
    intros l' [= <-]. split; [done|].
    eexists _, _. split_and!; [done..|apply extended_by_setitem].
Qed.

Lemma predict_copies_flag_writes_witness :
  (predict_transport_mode (examples.speeds [2.0; 30.0; 200.0]%float)
     examples.store 1%positive "simple-coarse" None).1 = Ok 2%positive ∧
  (predict_transport_mode (examples.speeds [2.0; 30.0; 200.0]%float)
     examples.store 1%positive "simple-coarse" None).2 !! 1%positive
  = Some examples.segments ∧
  (create_activity_flag examples.store 1%positive "time_threshold" 15 "is_activity").1
  = Ok 1%positive.
Proof.
  destruct (predict_copies_flag_writes (examples.speeds [2.0; 30.0; 200.0]%float)
              examples.store 1%positive) as [Hp Hc].
  split; [reflexivity|]. split; [|reflexivity].
  by apply (Hp "simple-coarse" None).
Defined.

(** C9, as stated, fails on a table that has a column [mode] already: in
    the table returned that column holds the predicted modes, not what it
    held before. *)
Lemma predict_transport_mode_replaces_mode :
  has_column examples.labelled "mode" = true ∧
  assigned_modes
    (predict_transport_mode (examples.speeds [2.0; 30.0; 200.0]%float)
       examples.labelled_store 1%positive "simple-coarse" None)
  ≠ first_column examples.labelled "mode".
Proof.
  split; [reflexivity|].
  unfold predict_transport_mode. simpl.
  erewrite (predict_simple_coarse_returns _ _ _ examples.labelled); [|reflexivity..].
  rewrite assigned_modes_insert. vm_compute. discriminate.
Qed.

End labelling_facts.

(** ** The contract of the segment view *)

Module triplegs_facts.
Import triplegs reading labelling_facts.

#[local] Arguments any_missing : simpl never.

Lemma assoc_is_Some cols c : c ∈ cols.*1 → is_Some (assoc cols c).
Proof.
  induction cols as [|[c' col] cols IH]; simpl.
  - intros H. by apply elem_of_nil in H.
  - destruct (label_eqb c' c) eqn:E; [by eexists|].
    intros [->|?]%elem_of_cons; [|by apply IH].
    by rewrite label_eqb_refl in E.
Qed.

Lemma has_column_first_column obj c :
  has_column obj c = true → ∃ col, first_column obj c = Ok col.
Proof.
  unfold has_column, first_column. intros Hin%bool_decide_eq_true.
  destruct (assoc_is_Some _ _ Hin) as [col ->]. by exists col.
Qed.

(** The columns under a label are none exactly when the label is not
    among the labels. *)
Lemma filter_label_nil (cols : list (Label * Column)) (c : Label) :
  filter (λ p : Label * Column, p.1 = c) cols = [] ↔ c ∉ cols.*1.
Proof.
  induction cols as [|[c' col] cols IH]; simpl.
  - split; [|done]. intros _ H. by apply elem_of_nil in H.
  - rewrite filter_cons. simpl. destruct (decide (c' = c)) as [->|Hne].
    + split; [done|]. intros H. exfalso. apply H. left.
    + rewrite IH, not_elem_of_cons. split; [by intros ?|by intros [_ ?]].
Qed.

Lemma item_missing obj c :
  has_column obj c = false → item obj c = Raise (KeyError (label_text c)).
Proof.
  unfold has_column, item. intros Hnin%bool_decide_eq_false.
  apply filter_label_nil in Hnin. by rewrite Hnin.
Qed.

Lemma has_column_item obj c : has_column obj c = true → ∃ s, item obj c = Ok s.
Proof.
  unfold has_column, item. intros Hin%bool_decide_eq_true.
  destruct (filter _ (columns obj)) as [|p [|q ps]] eqn:E; [|by eexists..].
  by apply filter_label_nil in E.
Qed.

Lemma item_has_column obj c s : item obj c = Ok s → has_column obj c = true.
Proof.
  intros Hs. destruct (has_column obj c) eqn:E; [done|].
  by rewrite (item_missing _ _ E) in Hs.
Qed.



Lemma item_Series_once obj c col : item obj c = Ok (Series col) → repeated obj c = false.
Proof.
  unfold repeated, item. intros Hs. apply bool_decide_eq_false.
  destruct (filter _ (columns obj)) as [|p [|q ps]]; simpl; [lia|lia|done].
Qed.

Lemma any_missing_false obj (c : string) :
  any_missing obj = false → c ∈ _required_columns → has_column obj c = true.
Proof.
  unfold any_missing. intros H Hin.
  destruct (has_column obj c) eqn:E; [done|].
  assert (existsb (λ c : string, negb (has_column obj c)) _required_columns = true) as Hex.
  { apply existsb_exists. exists c. split; [by apply list_elem_of_In|by rewrite E]. }
  congruence.
Qed.

Lemma any_missing_true obj :
  any_missing obj = true →
  ∃ c : string, c ∈ _required_columns ∧ has_column obj c = false.
Proof.
  unfold any_missing. intros (c & Hin & Hc)%existsb_exists.
  exists c. split; [by apply list_elem_of_In|by apply negb_true_iff].
Qed.

(** C2: [_check] returns [True] exactly when [_validate] returns without
    raising, for every table and either value of [validate_geometry]. *)
Theorem check_iff_validate (obj : DataFrame) (validate_geometry : bool) :
  _check obj validate_geometry = Ok true ↔ _validate obj validate_geometry = Ok tt.
Proof.
  unfold _check, _validate, py_assert.
  destruct (decide (0 < (shape obj).1)%nat) as [Hpos|Hpos].
  - rewrite (bool_decide_eq_true_2 _ Hpos).
    rewrite (bool_decide_eq_false_2 ((shape obj).1 ≤ 0)%nat) by lia. cbn.
    destruct (any_missing obj); cbn.
    { destruct (msg_columns obj); cbn; split; congruence. }
    destruct (item obj "started_at") as [[started_at|?]|e]; cbn; [|split; congruence..].
    destruct (is_DatetimeTZDtype started_at); cbn; [|split; congruence].
    destruct (item obj "finished_at") as [[finished_at|?]|e]; cbn; [|split; congruence..].
    destruct (is_DatetimeTZDtype finished_at); cbn; [|split; congruence].
    destruct validate_geometry; [|done].
    destruct (geometry obj) as [gs|e]; cbn; [|split; congruence].
    destruct (is_valid_all gs); cbn; [|split; congruence].
    destruct (first_geom_type gs) as [ty|e]; cbn; [|split; congruence].
    destruct (String.eqb ty "LineString"); cbn; split; congruence.
  - rewrite (bool_decide_eq_false_2 _ Hpos).
    rewrite (bool_decide_eq_true_2 ((shape obj).1 ≤ 0)%nat) by lia. cbn.
    destruct (any_missing obj); split; congruence.
Qed.

(** A table that meets the contract is accepted. *)
Example init_segments :
  __init__ examples.segments true = Ok {| frame := examples.segments |}.
Proof. reflexivity. Qed.

(** C4 fails on a table whose column labels are integers, as a table built
    without column names has them: the table lacks the required columns,
    and the constructor raises the [TypeError] of [', '.join(obj.columns)],
    met while the message about the columns is put together; that error
    names no requirement. *)
Theorem init_integer_labels (validate_geometry : bool) :
  violates examples_more.numbered RequiredColumns ∧
  __init__ examples_more.numbered validate_geometry
  = Raise (TypeError "sequence item 0: expected str instance, int found") ∧
  ∀ r, ¬ names examples_more.numbered r
           (TypeError "sequence item 0: expected str instance, int found").
Proof.
  split_and!.
  - exists "user_id". split; [by left|reflexivity].
  - reflexivity.
  - intros [| |c]; simpl; [done| |].
    + by intros (msg & _ & ?).
    + by intros (col & _ & ?).
Qed.

(** With the label [started_at] on two columns, one of them of naive
    instants, the constructor fails on the attribute [dtype], which the
    selection of two columns does not have. *)
Example init_repeated_label (validate_geometry : bool) :
  __init__ examples_more.doubled validate_geometry
  = Raise (AttributeError "'DataFrame' object has no attribute 'dtype'").
Proof. reflexivity. Qed.

End triplegs_facts.

(** ** Typed views under derivation, and the registry *)

Module util_facts.
Import util labelling_facts triplegs_facts.

Lemma assoc_filter cols c c' :
  assoc (filter (λ p : Label * Column, p.1 ≠ c) cols) c'
  = if label_eqb c' c then None else assoc cols c'.
Proof.
  induction cols as [|[c0 col] cols IH]; simpl; [by destruct (label_eqb c' c)|].
  rewrite filter_cons. simpl. destruct (decide (c0 ≠ c)) as [Hne|Heq]; simpl.
  - rewrite IH. destruct (label_eqb c0 c') eqn:E; [|done].
    apply label_eqb_eq in E as <-.
    by apply label_eqb_neq in Hne as ->.
  - apply dec_stable in Heq as ->. rewrite IH.
    destruct (label_eqb c' c) eqn:E; [done|].
    rewrite label_eqb_sym. by rewrite E.
Qed.

Lemma first_column_drop_other t c c' :
  c' ≠ c → first_column (drop t c) c' = first_column t c'.
Proof.
  intros Hne%label_eqb_neq. unfold first_column, drop. simpl.
  by rewrite assoc_filter, Hne.
Qed.

(** A drop leaves what stands under every other label alone. *)
Lemma filter_drop_other (cols : list (Label * Column)) (c c' : Label) :
  c' ≠ c →
  filter (λ p : Label * Column, p.1 = c') (filter (λ p : Label * Column, p.1 ≠ c) cols)
  = filter (λ p : Label * Column, p.1 = c') cols.
Proof.
  intros Hne. induction cols as [|[c0 col] cols IH]; [done|].
  rewrite !filter_cons. simpl. destruct (decide (c0 ≠ c)) as [H0|H0].
  - rewrite filter_cons. simpl. by rewrite IH.
  - apply dec_stable in H0 as ->. by rewrite decide_False by congruence.
Qed.

Lemma item_drop_other t c c' : c' ≠ c → item (drop t c) c' = item t c'.
Proof. intros Hne. unfold item, drop. simpl. by rewrite filter_drop_other. Qed.

Lemma has_column_drop_other t c c' :
  c' ≠ c → has_column (drop t c) c' = has_column t c'.
Proof.
  intros Hne. unfold has_column, drop. simpl. apply bool_decide_ext.
  rewrite !list_elem_of_fmap. split.
  - intros (p & -> & [_ Hin]%list_elem_of_filter). by exists p.
  - intros (p & -> & Hin). exists p. split; [done|].
    by apply list_elem_of_filter.
Qed.

Lemma has_column_drop_same t c : has_column (drop t c) c = false.
Proof.
  unfold has_column, drop. simpl. apply bool_decide_eq_false.
  rewrite list_elem_of_fmap. intros (p & -> & [Hne _]%list_elem_of_filter). done.
Qed.

Lemma item_drop_same t c : item (drop t c) c = Raise (KeyError (label_text c)).
Proof. apply item_missing, has_column_drop_same. Qed.

Lemma geometry_drop_other t (c : Label) :
  LStr (geometry_name t) ≠ c → geometry (drop t c) = geometry t.
Proof.
  intros Hne%label_eqb_neq. unfold geometry, drop. simpl.
  by rewrite assoc_filter, Hne.
Qed.

Lemma geometry_drop_same t : raises (geometry (drop t (geometry_name t))).
Proof.
  unfold geometry, drop. simpl. rewrite assoc_filter, label_eqb_refl. by eexists.
Qed.

(** The check of the segment contract is [Triplegs._check] without the
    validation of the geometry. *)
Lemma check_segment_contract t :
  check examples.segment_contract t = triplegs._check t false.
Proof. reflexivity. Qed.

(** The check of the contract of [A] is the test of the class [A]. *)
Lemma check_A_contract t :
  check fixtures.A_contract t = Ok (has_column t "user_id").
Proof. unfold check. simpl. by destruct (has_column t "user_id"). Qed.




#[local] Arguments has_geometry : simpl never.




(** The cases of [Test_wrapped_gdf_method]: what is no table is left
    alone; a failed check leaves the container; a passed check gives the
    class back, or the fallback class, or nothing, on a plain table. *)
Example wrapped_gdf_method_cases (t : DataFrame) (x : PyObj) :
  derive (fixtures.A_const false None) (λ _, Scalar x) t = Ok (None, Scalar x) ∧
  derive (fixtures.A_const false None) (Tabular true) t
  = Ok (Some PlainGeoDataFrame, Tabular true t) ∧
  derive (fixtures.A_const true None) (Tabular true) t
  = Ok (Some (Typed (fixtures.A_const true None)), Tabular true t) ∧
  derive (fixtures.A_const true (Some fixtures.B)) (Tabular false) t
  = Ok (Some (Typed fixtures.B), Tabular false t) ∧
  derive (fixtures.A_const true None) (Tabular false) t
  = Ok (Some PlainDataFrame, Tabular false t).
Proof. split_and!; reflexivity. Qed.

(** The cases of [TestTrackintelGeoDataFrame] and [TestTrackintelDataFrame]
    that drop a column or call the constructor. *)
Example constructor_cases :
  derive fixtures.A (drop_column true "user_id") fixtures.example_positionfixes
  = Ok (Some PlainGeoDataFrame,
        Tabular true (drop fixtures.example_positionfixes "user_id")) ∧
  derive fixtures.A (drop_column true "geometry") fixtures.example_positionfixes
  = Ok (Some (Typed fixtures.AFallback),
        Tabular false (drop fixtures.example_positionfixes "geometry")) ∧
  derive fixtures.A_unset (drop_column true "geometry") fixtures.example_positionfixes
  = Ok (Some PlainDataFrame,
        Tabular false (drop fixtures.example_positionfixes "geometry")) ∧
  derive fixtures.A (Tabular true) fixtures.example_positionfixes
  = Ok (Some (Typed fixtures.A), Tabular true fixtures.example_positionfixes) ∧
  derive fixtures.A_plain (drop_column false "user_id") fixtures.example_positionfixes
  = Ok (Some PlainDataFrame,
        Tabular false (drop fixtures.example_positionfixes "user_id")) ∧
  derive fixtures.A_plain (Tabular false) fixtures.example_positionfixes
  = Ok (Some (Typed fixtures.A_plain), Tabular false fixtures.example_positionfixes).
Proof. split_and!; reflexivity. Qed.

(** [Triplegs] declares no fallback class: without [user_id] the segments
    are a plain geometry-aware table, without their geometry a plain table,
    and without [trip_id] segments still. *)
Example segment_view_cases :
  derive examples.segment_view (drop_column true "user_id") examples.segments
  = Ok (Some PlainGeoDataFrame, Tabular true (drop examples.segments "user_id")) ∧
  derive examples.segment_view (drop_column true "geometry") examples.segments
  = Ok (Some PlainDataFrame, Tabular false (drop examples.segments "geometry")) ∧
  derive examples.segment_view (drop_column true "trip_id") examples.segments
  = Ok (Some (Typed examples.segment_view), Tabular true (drop examples.segments "trip_id")).
Proof. split_and!; reflexivity. Qed.

(** C7: registering a name twice emits exactly one warning at the second
    registration, and the second factory is the one bound: access to the
    name on an instance calls it, and access on the type returns it. A
    name not bound before is registered without a warning. *)
Theorem register_twice {Wrapped : Type} (r : Registry Wrapped) (name : string)
    (f1 f2 : DataFrame → Wrapped) (instance : DataFrame) :
  warned (register name f2 (register name f1 r))
    = warned (register name f1 r) ++ [name] ∧
  access (register name f2 (register name f1 r)) name instance = Ok (f2 instance) ∧
  access_on_type (register name f2 (register name f1 r)) name = Ok f2 ∧
  (bindings r !! name = None → warned (register name f1 r) = warned r).
Proof.
  split_and!.
  - unfold register at 1. simpl.
    rewrite bool_decide_eq_true_2; [done|]. by rewrite lookup_insert_eq.
  - unfold access, register. simpl. by rewrite lookup_insert_eq.
  - unfold access_on_type, register. simpl. by rewrite lookup_insert_eq.
  - intros Hnone. unfold register. simpl.
    rewrite bool_decide_eq_false_2; [done|]. rewrite Hnone. by intros [? ?].
Qed.

Lemma register_twice_witness :
  warned (register "as_triplegs" (λ t, drop t "geometry")
            (register "as_triplegs" (λ t, t)
               {| bindings := ∅; warned := [] |}))
  = ["as_triplegs"] ∧
  access (register "as_triplegs" (λ t, drop t "geometry")
            (register "as_triplegs" (λ t, t)
               {| bindings := ∅; warned := [] |}))
    "as_triplegs" examples.segments
  = Ok (drop examples.segments "geometry").
Proof.
  destruct (register_twice {| bindings := ∅; warned := [] |} "as_triplegs"
              (λ t, t) (λ t, drop t "geometry") examples.segments)
    as (Hw & Ha & _ & H1).
  split; [|exact Ha].
  rewrite Hw, H1; reflexivity.
Defined.

End util_facts.

(** * Further results *)

(** ** More on the order of binary64 numbers *)

Module float64_more.
Import float64 notions.

Lemma SFcompare_total x y :
  x ≠ S754_nan → y ≠ S754_nan → is_Some (SFcompare x y).
Proof. destruct x, y; simpl; intros; by eauto. Qed.

Lemma SFcompare_Eq_l x y z : SFcompare x y = Some Eq → SFcompare x z = SFcompare y z.
Proof.
  intros H. rewrite (SFcompare_antisym z x), (SFcompare_antisym z y).
  by rewrite (SFcompare_Eq_r z x y H).
Qed.

Lemma is_nan_false x : PrimFloat.is_nan x = false ↔ Prim2SF x ≠ S754_nan.
Proof.
  unfold PrimFloat.is_nan. rewrite negb_false_iff, eqb_Eq. split.
  - intros H Hnan. by rewrite Hnan in H.
  - apply SFcompare_refl.
Qed.

(** Between numbers that are no NaN, [not (y <= x)] is [x < y]. *)
Lemma not_geb_ltb x y :
  PrimFloat.is_nan x = false → PrimFloat.is_nan y = false →
  PrimFloat.leb y x = false → PrimFloat.ltb x y = true.
Proof.
  rewrite !is_nan_false, leb_spec, ltb_Lt. unfold SFleb. intros Hx Hy.
  rewrite (SFcompare_antisym (Prim2SF x) (Prim2SF y)).
  destruct (SFcompare_total _ _ Hx Hy) as [c ->]. by destruct c.
Qed.

Lemma leb_ltb_trans x y z :
  PrimFloat.leb x y = true → PrimFloat.ltb y z = true → PrimFloat.ltb x z = true.
Proof.
  rewrite leb_spec, !ltb_Lt. unfold SFleb.
  destruct (SFcompare (Prim2SF x) (Prim2SF y)) as [[]|] eqn:E; try done; intros _.
  - by rewrite (SFcompare_Eq_l _ _ _ E).
  - by apply SFcompare_Lt_trans.
Qed.

Lemma eqb_ltb_l x y z :
  PrimFloat.eqb x y = true → PrimFloat.ltb x z = PrimFloat.ltb y z.
Proof.
  rewrite eqb_Eq, !ltb_spec. unfold SFltb. intros H.
  by rewrite (SFcompare_Eq_l _ _ _ H).
Qed.

(** Nothing is above plus infinity. *)
Lemma ltb_infinity_l y : PrimFloat.ltb infinity y = false.
Proof.
  rewrite ltb_spec. unfold SFltb.
  change (Prim2SF infinity) with (S754_infinity false).
  by destruct (Prim2SF y) as [[]|[]| |[] m e].
Qed.

(** All but NaN and plus infinity is below plus infinity. *)
Lemma ltb_infinity_r x : PrimFloat.ltb x infinity = negb (unbounded x).
Proof.
  unfold unbounded, PrimFloat.is_nan.
  rewrite ltb_spec, !FloatAxioms.eqb_spec. unfold SFltb, SFeqb.
  change (Prim2SF infinity) with (S754_infinity false).
  destruct (Prim2SF x) as [s|s| |s m e] eqn:E.
  - by destruct s.
  - by destruct s.
  - done.
  - rewrite SFcompare_refl by done. by destruct s.
Qed.

Lemma unbounded_above x y : unbounded x = true → PrimFloat.ltb x y = false.
Proof.
  unfold unbounded. intros [Hnan|Hinf]%orb_true_iff.
  - rewrite ltb_spec. unfold SFltb.
    destruct (Prim2SF x) eqn:E; try done.
    all: apply negb_true_iff in Hnan; apply not_true_iff_false in Hnan;
      exfalso; apply Hnan; apply eqb_Eq; rewrite E; by apply SFcompare_refl.
  - rewrite (eqb_ltb_l _ _ _ Hinf). apply ltb_infinity_l.
Qed.

End float64_more.

(** ** More on the speed classifier and the activity flag *)

Module labelling_more.
Import labelling reading notions float64 float64_more labelling_facts.

Lemma leb_nan_l x : PrimFloat.leb nan x = false.
Proof. rewrite leb_spec. reflexivity. Qed.

Lemma leb_nan_r x : PrimFloat.leb x nan = false.
Proof.
  rewrite leb_spec. unfold SFleb. change (Prim2SF nan) with S754_nan.
  by destruct (Prim2SF x).
Qed.

(** One turn of the loop of [_check_categories]. *)
Lemma check_categories_cons a x b y rest :
  _check_categories ((a, x) :: (b, y) :: rest)
  = negb (PrimFloat.leb b a) && _check_categories ((b, y) :: rest).
Proof.
  apply eq_true_iff_eq.
  rewrite andb_true_iff, negb_true_iff, !check_categories_spec. simpl. split.
  - intros H. split; [apply (H 0%nat); lia|].
    intros i Hi. apply (H (S i)). lia.
  - intros [H0 H] [|i] Hi; [done|]. apply H. lia.
Qed.

(** Without a NaN among the bounds, the check passes exactly on strictly
    ascending bounds. *)
Lemma check_categories_ascending cat :
  nan_free (keys cat) = true →
  _check_categories cat = strictly_ascending (keys cat).
Proof.
  induction cat as [|[a x] cat IH]; [done|].
  destruct cat as [|[b y] rest]; [done|].
  intros Hfree. rewrite check_categories_cons.
  change (keys ((a, x) :: (b, y) :: rest)) with (a :: keys ((b, y) :: rest)) in *.
  simpl in Hfree. apply andb_prop in Hfree as [Ha Hrest].
  rewrite (IH Hrest). simpl. f_equal.
  apply andb_prop in Hrest as [Hb _]. apply negb_true_iff in Ha, Hb.
  destruct (PrimFloat.leb b a) eqn:Hle; simpl.
  - symmetry. apply not_true_iff_false. intros Hlt%ltb_not_geb. congruence.
  - symmetry. by apply not_geb_ltb.
Qed.

(** X1: for bounds without a NaN, [_check_categories] returns [True]
    exactly when the bounds are strictly ascending in the order of the
    mapping; the empty mapping and a mapping with one band pass. *)
Theorem check_categories_iff_ascending (cat : dict) :
  nan_free (keys cat) = true →
  (_check_categories cat = true ↔ strictly_ascending (keys cat) = true) ∧
  ((length cat ≤ 1)%nat → _check_categories cat = true).
Proof.
  intros Hfree. split.
  - by rewrite check_categories_ascending.
  - intros Hlen. destruct cat as [|[a x] [|? ?]]; simpl in Hlen; [done|done|lia].
Qed.

Lemma check_categories_iff_ascending_witness :
  nan_free (keys examples.descending) = true ∧
  _check_categories examples.descending = false.
Proof.
  split; [reflexivity|].
  destruct (check_categories_iff_ascending examples.descending eq_refl) as [H _].
  apply not_true_iff_false. intros Hc%H. discriminate.
Defined.

(** X2: a NaN bound hides disorder from [_check_categories]: the bounds
    before it and the bounds after it are checked apart, and nothing ties
    the two sides, so a mapping with the keys a, NaN, c passes whatever a
    and c are. *)
Theorem check_categories_nan_splits (pre post : dict) (name : string) :
  _check_categories (pre ++ (nan, name) :: post)
  = _check_categories pre && _check_categories post ∧
  ∀ a c x z, _check_categories [(a, x); (nan, name); (c, z)] = true.
Proof.
  split.
  - induction pre as [|[a x] pre IH].
    + destruct post as [|[c z] post]; [done|].
      simpl app. by rewrite check_categories_cons, leb_nan_r.
    + destruct pre as [|[b w] pre].
      * simpl app in *. rewrite check_categories_cons, leb_nan_l, IH. done.
      * change (((a, x) :: (b, w) :: pre) ++ (nan, name) :: post)
          with ((a, x) :: (b, w) :: (pre ++ (nan, name) :: post)).
        rewrite !check_categories_cons.
        change ((b, w) :: pre ++ (nan, name) :: post)
          with (((b, w) :: pre) ++ (nan, name) :: post).
        rewrite IH. by rewrite andb_assoc.
  - intros a c x z. by rewrite !check_categories_cons, leb_nan_l, leb_nan_r.
Qed.

(** X3: bounds without a NaN that are not strictly ascending are refused:
    the call raises [ValueError], no copy is made and the store is as it
    was. *)
Theorem predict_refuses_disorder
    (get_speed_triplegs : DataFrame → result SpeedFrame) (h : heap) l (cat : dict) :
  nan_free (keys cat) = true →
  strictly_ascending (keys cat) = false →
  predict_transport_mode get_speed_triplegs h l "simple-coarse" (Some cat)
  = (Raise (ValueError "the categories must be in increasing order"), h).
Proof.
  intros Hfree Hasc. unfold predict_transport_mode. simpl.
  unfold _predict_transport_mode_simple_coarse.
  by rewrite (check_categories_ascending cat Hfree), Hasc.
Qed.

Lemma predict_refuses_disorder_witness :
  predict_transport_mode (examples.speeds [1%float]) examples.store 1%positive
    "simple-coarse" (Some examples.descending)
  = (Raise (ValueError "the categories must be in increasing order"), examples.store).
Proof.
  exact (predict_refuses_disorder (examples.speeds [1%float]) examples.store
           1%positive examples.descending eq_refl eq_refl).
Defined.

(** X4: a speed that is NaN or plus infinity gets no category from any
    mapping, and when plus infinity is among the bounds these are the only
    speeds without a category. *)
Theorem category_by_speed_unbounded (cat : dict) (speed : float) :
  (unbounded speed = true → category_by_speed cat speed = Ok PyNone) ∧
  (infinity ∈ keys cat → category_by_speed cat speed = Ok PyNone →
   unbounded speed = true).
Proof.
  rewrite category_by_speed_mode_of. unfold mode_of. split.
  - intros Hunb.
    assert (above_all cat speed) as Habove by (intros b _; by apply unbounded_above).
    by apply first_band_None in Habove as ->.
  - intros Hin Hnone.
    destruct (first_band cat speed) as [[b n]|] eqn:E; [done|].
    apply first_band_None in E. specialize (E infinity Hin).
    rewrite ltb_infinity_r in E. by apply negb_false_iff in E.
Qed.

Lemma category_by_speed_unbounded_witness :
  unbounded infinity = true ∧ infinity ∈ keys default_categories ∧
  category_by_speed default_categories infinity = Ok PyNone.
Proof.
  split; [reflexivity|]. split; [set_solver|].
  by apply (category_by_speed_unbounded default_categories infinity).
Defined.

(** X5: with strictly ascending bounds the classifier is monotone: if a
    speed falls in a band, every speed not above it falls in a band too,
    and that band's bound is not above the other's. *)
Theorem category_by_speed_monotone (cat : dict) (s1 s2 b2 : float) (n2 : string) :
  strictly_ascending (keys cat) = true →
  PrimFloat.leb s1 s2 = true →
  first_band cat s2 = Some (b2, n2) →
  category_by_speed cat s2 = Ok (PyStr n2) ∧
  ∃ b1 n1, first_band cat s1 = Some (b1, n1) ∧
    category_by_speed cat s1 = Ok (PyStr n1) ∧
    PrimFloat.leb b1 b2 = true.
Proof.
  intros Hasc Hle H2. rewrite !category_by_speed_mode_of. unfold mode_of.
  rewrite H2. split; [done|].
  destruct (first_band_Some _ _ _ _ H2) as (pre & rest & Hcat & _ & Hlt2).
  assert ((b2, n2) ∈ cat) as Hin by (rewrite Hcat; set_solver).
  assert (PrimFloat.ltb s1 b2 = true) as Hlt1 by by eapply leb_ltb_trans.
  destruct (first_band cat s1) as [[b1 n1]|] eqn:E.
  - exists b1, n1. split_and!; [done|done|]. by eapply first_band_least.
  - apply first_band_None in E. rewrite E in Hlt1; [done|].
    apply list_elem_of_fmap. by exists (b2, n2).
Qed.

Lemma category_by_speed_monotone_witness :
  category_by_speed default_categories 30 = Ok (PyStr "fast_mobility") ∧
  ∃ b1 n1, first_band default_categories 2 = Some (b1, n1) ∧
    category_by_speed default_categories 2 = Ok (PyStr n1) ∧
    PrimFloat.leb b1 infinity = true.
Proof.
  exact (category_by_speed_monotone default_categories 2 30 infinity "fast_mobility"
           eq_refl eq_refl eq_refl).
Defined.

(** X6: [category_by_speed] never raises, whatever the mapping: the lookup
    [categories[bound]] finds its key. It returns [None] when no bound
    exceeds the speed, and else the category stored under a bound that
    exceeds it. *)
Theorem category_by_speed_returns (cat : dict) (speed : float) :
  ∃ v, category_by_speed cat speed = Ok v ∧
    ((v = PyNone ∧ above_all cat speed) ∨
     (∃ bound name, v = PyStr name ∧ (bound, name) ∈ cat ∧
        PrimFloat.ltb speed bound = true)).
Proof.
  rewrite category_by_speed_mode_of. unfold mode_of. eexists. split; [done|].
  destruct (first_band cat speed) as [[b n]|] eqn:E.
  - right. exists b, n. apply first_band_Some in E as (pre & rest & -> & _ & Hlt).
    split_and!; [done|set_solver|done].
  - left. split; [done|]. by apply first_band_None.
Qed.

End labelling_more.

(** ** More on the activity flag *)

Module activity_more.
Import labelling reading notions labelling_facts triplegs_facts.

Lemma replace_all_twice cols c col col' :
  replace_all (replace_all cols c col) c col' = replace_all cols c col'.
Proof.
  unfold replace_all. induction cols as [|[c' col0] cols IH]; [done|].
  rewrite !fmap_cons, IH. simpl. destruct (label_eqb c' c) eqn:E; simpl; by rewrite E.
Qed.

Lemma assoc_set_twice cols c col col' :
  assoc_set (assoc_set cols c col) c col' = assoc_set cols c col'.
Proof.
  induction cols as [|[c' col0] cols IH]; simpl.
  - by rewrite label_eqb_refl.
  - destruct (label_eqb c' c) eqn:E; simpl; rewrite E; [|by rewrite IH].
    by rewrite replace_all_twice.
Qed.

Lemma setitem_twice obj c col col' :
  setitem (setitem obj c col) c col' = setitem obj c col'.
Proof. unfold setitem. simpl. by rewrite assoc_set_twice. Qed.

(** The call on a table whose two time columns and their difference are
    known: it returns or raises with the [timedelta] and the comparison. *)
Lemma create_activity_flag_eval h sp t name obj fin sta d :
  h !! sp = Some obj →
  item obj "finished_at" = Ok fin → item obj "started_at" = Ok sta →
  selection_sub fin sta = Ok d →
  create_activity_flag h sp "time_threshold" t name
  = match delta ← timedelta_minutes t; column_gt d delta with
    | Ok flag => (Ok sp, <[sp := setitem obj name flag]> h)
    | Raise e => (Raise e, h)
    end.
Proof.
  intros Hsp Hfin Hsta Hd. unfold create_activity_flag, deref. simpl.
  rewrite Hsp. cbn. rewrite Hfin. cbn. rewrite Hsta. cbn. rewrite Hd. cbn.
  destruct (timedelta_minutes t) as [delta|e]; cbn; [|done].
  by destruct (column_gt d delta).
Qed.

(** The same call after a first one has set the activity column. *)
Lemma create_activity_flag_after h sp t (name : string) obj fin sta d flag0 :
  name ≠ "started_at" → name ≠ "finished_at" →
  h !! sp = Some obj →
  item obj "finished_at" = Ok fin → item obj "started_at" = Ok sta →
  selection_sub fin sta = Ok d →
  create_activity_flag (<[sp := setitem obj name flag0]> h) sp "time_threshold" t name
  = match delta ← timedelta_minutes t; column_gt d delta with
    | Ok flag => (Ok sp, <[sp := setitem obj name flag]> h)
    | Raise e => (Raise e, <[sp := setitem obj name flag0]> h)
    end.
Proof.
  intros Hs Hf Hsp Hfin Hsta Hd.
  rewrite (create_activity_flag_eval _ _ _ _ (setitem obj name flag0) fin sta d).
  - destruct (_ ← timedelta_minutes t; _) as [flag|e]; [|done].
    by rewrite setitem_twice, insert_insert_eq.
  - apply lookup_insert_eq.
  - rewrite item_setitem_other; [done|congruence].
  - rewrite item_setitem_other; [done|congruence].
  - done.
Qed.

(** X7: flagging again replaces the flag. After a call that returned, a
    second call on the same table, with any threshold, returns what it
    would have returned without the first call, store included, or raises
    the same error, the store staying as the first call left it; with the
    same threshold nothing changes. The activity column must not be one
    of the two time columns. *)
Theorem create_activity_flag_again (h : heap) sp method t t' (name : string) l h1 :
  name ≠ "started_at" → name ≠ "finished_at" →
  create_activity_flag h sp method t name = (Ok l, h1) →
  (∀ l' h2, create_activity_flag h sp method t' name = (Ok l', h2) →
     create_activity_flag h1 sp method t' name = (Ok l', h2)) ∧
  (∀ e, create_activity_flag h sp method t' name = (Raise e, h) →
     create_activity_flag h1 sp method t' name = (Raise e, h1)) ∧
  create_activity_flag h1 sp method t name = (Ok l, h1).
Proof.
  intros Hs Hf
    (obj & fin & sta & d & delta & flag & -> & Hsp & Hfin & Hsta & Hd & Hdelta & Hflag
     & -> & ->)%create_activity_flag_inv.
  split_and!.
  - intros l' h2.
    rewrite (create_activity_flag_eval h _ _ _ obj fin sta d) by done.
    rewrite (create_activity_flag_after h _ _ _ obj fin sta d) by done.
    by destruct (_ ← timedelta_minutes t'; _).
  - intros e.
    rewrite (create_activity_flag_eval h _ _ _ obj fin sta d) by done.
    rewrite (create_activity_flag_after h _ _ _ obj fin sta d) by done.
    destruct (_ ← timedelta_minutes t'; _); [done|]. by intros [= ->].
  - rewrite (create_activity_flag_after h _ _ _ obj fin sta d) by done.
    rewrite Hdelta. cbn. by rewrite Hflag.
Qed.

Lemma create_activity_flag_again_witness :
  create_activity_flag
    (create_activity_flag examples.store 1%positive "time_threshold" 15 "is_activity").2
    1%positive "time_threshold" 15 "is_activity"
  = (Ok 1%positive,
     (create_activity_flag examples.store 1%positive "time_threshold" 15 "is_activity").2).
Proof.
  destruct (create_activity_flag_again examples.store 1%positive "time_threshold"
              15 5 "is_activity" 1%positive
              (create_activity_flag examples.store 1%positive "time_threshold" 15
                 "is_activity").2) as (_ & _ & H); [discriminate|discriminate|reflexivity|].
  exact H.
Defined.

Lemma timedelta_minutes_Ok m delta : timedelta_minutes m = Ok delta → delta = minutes m.
Proof. unfold timedelta_minutes, minutes. case_bool_decide; [by intros [= <-]|done]. Qed.

(** X8: a lower threshold flags no fewer rows: when the call with the
    higher threshold returns, so does the call with a lower one whose
    nanosecond count fits 64 bits, and every row flagged under the higher
    threshold is flagged under the lower. *)
Theorem create_activity_flag_threshold_monotone
    (h : heap) sp method (t1 t2 : Z) (name : string) (f2 : list bool) :
  t1 ≤ t2 →
  threshold_fits t1 = true →
  returned_column (create_activity_flag h sp method t2 name) name = Ok (ColBool f2) →
  ∃ f1,
    returned_column (create_activity_flag h sp method t1 name) name = Ok (ColBool f1) ∧
    length f1 = length f2 ∧
    ∀ i, f2 !! i = Some true → f1 !! i = Some true.
Proof.
  intros Hle Hfits Hret.
  destruct (create_activity_flag h sp method t2 name) as [r h2] eqn:E.
  unfold returned_column in Hret. simpl in Hret.
  destruct r as [l|e]; cbn in Hret; [|done].
  apply create_activity_flag_inv
    in E as (obj & fin & sta & d & delta & flag & -> & Hsp & Hfin & Hsta & Hd & Hdelta
             & Hflag & -> & ->).
  rewrite deref_insert in Hret. cbn in Hret. rewrite first_column_setitem in Hret.
  injection Hret as ->. apply timedelta_minutes_Ok in Hdelta as ->.
  destruct d as [| | | | |xs|]; simpl in Hflag; try done.
  destruct (fits_int64 _); [|done]. injection Hflag as <-.
  eexists. split_and!.
  - erewrite create_activity_flag_intro;
      [apply returned_column_insert|done|done|done|done|by apply timedelta_minutes_fits|
       by apply column_gt_fits].
  - by rewrite !length_fmap.
  - intros i. rewrite !list_lookup_fmap.
    destruct (xs !! i) as [[x|]|]; simpl; try done.
    intros [= Hx%bool_decide_eq_true]. f_equal. apply bool_decide_eq_true.
    unfold minutes in *. lia.
Qed.

Lemma create_activity_flag_threshold_monotone_witness :
  ∃ f1,
    returned_column
      (create_activity_flag examples.store 1%positive "time_threshold" 5 "is_activity")
      "is_activity" = Ok (ColBool f1) ∧
    length f1 = 3%nat ∧
    ∀ i, [true; false; false] !! i = Some true → f1 !! i = Some true.
Proof.
  exact (create_activity_flag_threshold_monotone examples.store 1%positive
           "time_threshold" 5 15 "is_activity" [true; false; false]
           ltac:(lia) eq_refl eq_refl).
Defined.

(** X9: when one of the two time columns is missing, the call raises a
    [KeyError] for it, [finished_at] first, and nothing is written: the
    store is as it was. *)
Theorem create_activity_flag_missing_column (h : heap) sp obj (t : Z) name :
  h !! sp = Some obj →
  (has_column obj "finished_at" = false →
   create_activity_flag h sp "time_threshold" t name
   = (Raise (KeyError "finished_at"), h)) ∧
  (has_column obj "finished_at" = true → has_column obj "started_at" = false →
   create_activity_flag h sp "time_threshold" t name
   = (Raise (KeyError "started_at"), h)).
Proof.
  intros Hsp. unfold create_activity_flag, deref. simpl. rewrite Hsp. cbn. split.
  - intros Hf. by rewrite (item_missing _ _ Hf).
  - intros [fin ->]%has_column_item Hs. cbn.
    by rewrite (item_missing _ _ Hs).
Qed.

Lemma create_activity_flag_missing_column_witness :
  examples_more.open_ended_store !! 1%positive = Some examples_more.open_ended ∧
  create_activity_flag examples_more.open_ended_store
    1%positive "time_threshold" 15 "is_activity"
  = (Raise (KeyError "finished_at"), examples_more.open_ended_store).
Proof.
  split; [reflexivity|].
  by apply (create_activity_flag_missing_column _ _ examples_more.open_ended).
Defined.

End activity_more.

(** ** More on the contract of the segment view *)

Module triplegs_more.
Import triplegs reading notions labelling labelling_facts triplegs_facts.

#[local] Arguments any_missing : simpl never.

(** [_validate] returns exactly on the tables that meet the requirements. *)
Lemma validate_meets obj vg : _validate obj vg = Ok tt ↔ meets obj vg.
Proof.
  unfold _validate, meets, py_assert.
  destruct (decide (0 < (shape obj).1)%nat) as [Hpos|Hpos]; cycle 1.
  { rewrite (bool_decide_eq_false_2 _ Hpos). cbn. split; [done|]. by intros [? _]. }
  rewrite (bool_decide_eq_true_2 _ Hpos). cbn.
  destruct (any_missing obj); cbn.
  { split; [by destruct (msg_columns obj)|]. by intros (_ & ? & _). }
  destruct (item obj "started_at") as [[s|ss]|e]; cbn;
    [|by split; [|intros (_ & _ & (c & ? & _) & _)]..].
  destruct (is_DatetimeTZDtype s) eqn:Hs; cbn; cycle 1.
  { split; [done|]. intros (_ & _ & (c & [= <-] & ?) & _). congruence. }
  destruct (item obj "finished_at") as [[f|fs]|e]; cbn;
    [|by split; [|intros (_ & _ & _ & (c & ? & _) & _)]..].
  destruct (is_DatetimeTZDtype f) eqn:Hf; cbn; cycle 1.
  { split; [done|]. intros (_ & _ & _ & (c & [= <-] & ?) & _). congruence. }
  destruct vg; cycle 1.
  { split; [|done]. intros _. split_and!; eauto. done. }
  destruct (geometry obj) as [gs|e]; cbn; cycle 1.
  { split; [done|]. intros (_ & _ & _ & _ & Hg).
    by destruct (Hg eq_refl) as (gs & ? & _). }
  destruct (is_valid_all gs) eqn:Hv; cbn; cycle 1.
  { split; [done|]. intros (_ & _ & _ & _ & Hg).
    destruct (Hg eq_refl) as (gs' & [= <-] & ? & _). congruence. }
  destruct (first_geom_type gs) as [ty|e] eqn:Hty; cbn; cycle 1.
  { split; [done|]. intros (_ & _ & _ & _ & Hg).
    destruct (Hg eq_refl) as (gs' & [= <-] & _ & ?). congruence. }
  destruct (String.eqb ty "LineString") eqn:Hls; cbn.
  - apply String.eqb_eq in Hls as ->. split; [|done]. intros _.
    split_and!; eauto.
  - split; [done|]. intros (_ & _ & _ & _ & Hg).
    destruct (Hg eq_refl) as (gs' & [= <-] & _ & Hty').
    rewrite Hty in Hty'. injection Hty' as ->. by rewrite String.eqb_refl in Hls.
Qed.

(** [_check] returns [True] exactly on the tables that meet the
    requirements. *)
Lemma check_meets obj vg : _check obj vg = Ok true ↔ meets obj vg.
Proof.
  unfold _check, meets.
  destruct (any_missing obj); cbn.
  { split; [done|]. by intros (_ & ? & _). }
  destruct (decide (0 < (shape obj).1)%nat) as [Hpos|Hpos]; cycle 1.
  { rewrite (bool_decide_eq_true_2 ((shape obj).1 ≤ 0)%nat) by lia.
    split; [done|]. by intros [? _]. }
  rewrite (bool_decide_eq_false_2 ((shape obj).1 ≤ 0)%nat) by lia.
  destruct (item obj "started_at") as [[s|ss]|e]; cbn;
    [|by split; [|intros (_ & _ & (c & ? & _) & _)]..].
  destruct (is_DatetimeTZDtype s) eqn:Hs; cbn; cycle 1.
  { split; [done|]. intros (_ & _ & (c & [= <-] & ?) & _). congruence. }
  destruct (item obj "finished_at") as [[f|fs]|e]; cbn;
    [|by split; [|intros (_ & _ & _ & (c & ? & _) & _)]..].
  destruct (is_DatetimeTZDtype f) eqn:Hf; cbn; cycle 1.
  { split; [done|]. intros (_ & _ & _ & (c & [= <-] & ?) & _). congruence. }
  destruct vg; cycle 1.
  { split; [|done]. intros _. split_and!; eauto. done. }
  destruct (geometry obj) as [gs|e]; cbn; cycle 1.
  { split; [done|]. intros (_ & _ & _ & _ & Hg).
    by destruct (Hg eq_refl) as (gs & ? & _). }
  destruct (is_valid_all gs) eqn:Hv; cbn; cycle 1.
  { split; [done|]. intros (_ & _ & _ & _ & Hg).
    destruct (Hg eq_refl) as (gs' & [= <-] & ? & _). congruence. }
  destruct (first_geom_type gs) as [ty|e] eqn:Hty; cbn; cycle 1.
  { split; [done|]. intros (_ & _ & _ & _ & Hg).
    destruct (Hg eq_refl) as (gs' & [= <-] & _ & ?). congruence. }
  destruct (String.eqb ty "LineString") eqn:Hls; cbn.
  - apply String.eqb_eq in Hls as ->. split; [|done]. intros _.
    split_and!; eauto.
  - split; [done|]. intros (_ & _ & _ & _ & Hg).
    destruct (Hg eq_refl) as (gs' & [= <-] & _ & Hty').
    rewrite Hty in Hty'. injection Hty' as ->. by rewrite String.eqb_refl in Hls.
Qed.

Lemma meets_without_geometry obj : meets obj true → meets obj false.
Proof. intros (? & ? & ? & ? & _). by split_and!. Qed.

(** X10: the constructor returns exactly on the tables that pass [_check]
    with the same [validate_geometry], and the instance it returns holds
    the table as given. *)
Theorem init_iff_check (data : DataFrame) (validate_geometry : bool) (t : Triplegs) :
  __init__ data validate_geometry = Ok t ↔
  t = {| frame := data |} ∧ _check data validate_geometry = Ok true.
Proof.
  rewrite check_meets, <- validate_meets. unfold __init__.
  destruct (_validate data validate_geometry) as [[]|e]; cbn.
  - split; [by intros [= <-]|by intros [-> _]].
  - split; [done|by intros [_ ?]].
Qed.

(** X11: validation with the geometry is the stricter one: a table that
    passes [_check] with [validate_geometry] set passes it without, and a
    table the constructor accepts with it is accepted without. *)
Theorem geometry_validation_stricter (obj : DataFrame) (t : Triplegs) :
  (_check obj true = Ok true → _check obj false = Ok true) ∧
  (__init__ obj true = Ok t → __init__ obj false = Ok t).
Proof.
  split.
  - rewrite !check_meets. apply meets_without_geometry.
  - unfold __init__.
    destruct (_validate obj true) as [[]|e] eqn:E; cbn; [|done].
    apply validate_meets, meets_without_geometry, validate_meets in E.
    by rewrite E.
Qed.

Lemma geometry_validation_stricter_witness :
  _check examples.segments true = Ok true ∧ _check examples.segments false = Ok true.
Proof.
  split; [reflexivity|].
  by apply (geometry_validation_stricter examples.segments {| frame := examples.segments |}).
Defined.







(** What [validate_geometry] adds on a table that passes without it. *)
Lemma validate_geometry_part obj :
  meets obj false →
  _validate obj true
  = (gs ← geometry obj;
     py_assert (is_valid_all gs) msg_invalid;;
     gs' ← geometry obj;
     ty ← first_geom_type gs';
     if negb (String.eqb ty "LineString") then Raise (AttributeError msg_linestring)
     else Ok tt) ∧
  _check obj true
  = (gs ← geometry obj;
     if is_valid_all gs then
       gs' ← geometry obj;
       ty ← first_geom_type gs';
       Ok (String.eqb ty "LineString")
     else Ok false).
Proof.
  intros (Hpos & Hmiss & (s & Hs & Hstz) & (f & Hf & Hftz) & _).
  unfold _validate, _check, py_assert.
  rewrite (bool_decide_eq_true_2 _ Hpos), Hmiss.
  rewrite (bool_decide_eq_false_2 ((shape obj).1 ≤ 0)%nat) by lia.
  cbn. rewrite Hs. cbn. rewrite Hstz. cbn. rewrite Hf. cbn. by rewrite Hftz.
Qed.

(** X13: of the geometry types only the first is looked at: on a table
    whose first geometry is there, validation with the geometry passes
    exactly when validation without it passes, every geometry is valid and
    the first is a LineString, whatever the types of the others. *)
Theorem validate_first_geometry_only (obj : DataFrame) (g : Geom)
    (rest : list (option Geom)) :
  geometry obj = Ok (Some g :: rest) →
  (_validate obj true = Ok tt ↔
   _validate obj false = Ok tt ∧ is_valid g = true ∧ is_valid_all rest = true ∧
   geom_type g = "LineString").
Proof.
  intros Hgeo. rewrite !validate_meets. split.
  - intros Hm. split; [by apply meets_without_geometry|].
    destruct Hm as (_ & _ & _ & _ & Hg).
    destruct (Hg eq_refl) as (gs & Hgs & Hvalid & Hty).
    rewrite Hgeo in Hgs. injection Hgs as <-. simpl in Hvalid, Hty.
    apply andb_prop in Hvalid as [? ?]. by injection Hty as ->.
  - intros ((? & ? & ? & ? & _) & Hg & Hrest & Hty). split_and!; [done..|].
    intros _. exists (Some g :: rest). split_and!; [done| |by rewrite <- Hty].
    simpl. by rewrite Hg, Hrest.
Qed.

Lemma validate_first_geometry_only_witness :
  geometry examples_more.mixed
  = Ok [Some examples.line; Some examples_more.point; Some examples_more.point] ∧
  _validate examples_more.mixed true = Ok tt.
Proof.
  split; [reflexivity|].
  by apply (validate_first_geometry_only examples_more.mixed examples.line
              [Some examples_more.point; Some examples_more.point] eq_refl).
Defined.

(** X14: on a table that passes without the geometry, validation with it
    fails in this order: a geometry that is missing or not valid is an
    [AssertionError], and [_check] returns [False]; when all are valid and
    the first is no LineString it is an [AttributeError], and [_check]
    returns [False]. *)
Theorem validate_geometry_errors (obj : DataFrame) (gs : list (option Geom)) :
  _validate obj false = Ok tt →
  geometry obj = Ok gs →
  (is_valid_all gs = false →
   _validate obj true = Raise (AssertionError msg_invalid) ∧
   _check obj true = Ok false) ∧
  (is_valid_all gs = true →
   ∀ ty, first_geom_type gs = Ok ty → ty ≠ "LineString" →
     _validate obj true = Raise (AttributeError msg_linestring) ∧
     _check obj true = Ok false).
Proof.
  intros Hm%validate_meets Hgeo.
  destruct (validate_geometry_part obj Hm) as [-> ->]. rewrite Hgeo. cbn.
  split.
  - intros ->. by cbn.
  - intros -> ty Hty Hne%String.eqb_neq. cbn. rewrite Hty. cbn. by rewrite Hne.
Qed.

Lemma validate_geometry_errors_witness :
  _validate examples_more.pointed false = Ok tt ∧
  _validate examples_more.pointed true = Raise (AttributeError msg_linestring) ∧
  _check examples_more.pointed true = Ok false.
Proof.
  split; [reflexivity|].
  destruct (validate_geometry_errors examples_more.pointed
              [Some examples_more.point; Some examples.line; Some examples.line]
              eq_refl eq_refl) as [_ H].
  by apply (H eq_refl "Point").
Defined.

(** X15: on a table that passes without the geometry and has no active
    geometry column, [_check] with [validate_geometry] set does not return
    [False]: it raises what the geometry accessor raises, as [_validate]
    does. *)
Theorem check_raises_without_geometry_column (obj : DataFrame) (e : exn) :
  _check obj false = Ok true →
  geometry obj = Raise e →
  _check obj true = Raise e ∧ _validate obj true = Raise e.
Proof.
  intros Hm%check_meets Hgeo.
  destruct (validate_geometry_part obj Hm) as [-> ->]. by rewrite Hgeo.
Qed.

Lemma check_raises_without_geometry_column_witness :
  _check examples_more.flat false = Ok true ∧
  raises (_check examples_more.flat true).
Proof.
  split; [reflexivity|]. eexists.
  by apply (check_raises_without_geometry_column examples_more.flat).
Defined.

End triplegs_more.

(** ** The contract under column operations *)

Module contract_more.
Import triplegs reading notions labelling labelling_facts triplegs_facts.
Import util_facts activity_more triplegs_more.

#[local] Arguments any_missing : simpl never.

Lemma required_not_dropped (c c' : string) :
  c ∉ _required_columns → c' ∈ _required_columns → LStr c' ≠ LStr c.
Proof. intros Hnin Hin [= Heq]. by subst. Qed.

Lemma any_missing_drop obj (c : string) :
  c ∉ _required_columns → any_missing obj = false → any_missing (drop obj c) = false.
Proof.
  intros Hc Hmiss. apply not_true_iff_false.
  intros (c' & Hin & Hc')%any_missing_true.
  rewrite has_column_drop_other in Hc' by by eapply required_not_dropped.
  by rewrite (any_missing_false obj c') in Hc'.
Qed.

Lemma has_column_setitem obj c col c' :
  has_column obj c' = true → has_column (setitem obj c col) c' = true.
Proof.
  unfold has_column, setitem. simpl. rewrite !bool_decide_eq_true.
  induction (columns obj) as [|[c0 col0] cols IH]; simpl.
  - intros H. by apply elem_of_nil in H.
  - intros [Heq|Hin]%elem_of_cons.
    + subst c0. destruct (label_eqb c' c); simpl; left.
    + destruct (label_eqb c0 c); simpl; right; [|by apply IH].
      by rewrite replace_all_labels.
Qed.

Lemma any_missing_setitem obj c col :
  any_missing obj = false → any_missing (setitem obj c col) = false.
Proof.
  intros Hmiss. apply not_true_iff_false.
  intros (c' & Hin & Hc')%any_missing_true.
  by rewrite has_column_setitem in Hc' by by apply any_missing_false.
Qed.

Lemma geometry_setitem_other obj (c : string) col :
  c ≠ geometry_name obj → geometry (setitem obj c col) = geometry obj.
Proof.
  intros Hne. unfold geometry, setitem. simpl. rewrite assoc_set_other; [done|].
  congruence.
Qed.

Lemma meets_drop obj vg (c : string) :
  c ∉ _required_columns → (vg = true → c ≠ geometry_name obj) →
  meets obj vg → meets (drop obj c) vg.
Proof.
  intros Hc Hg (Hpos & Hmiss & (s & Hs & Hstz) & (f & Hf & Hftz) & Hgeo).
  split_and!.
  - done.
  - by apply any_missing_drop.
  - exists s. rewrite item_drop_other; [done|].
    apply (required_not_dropped c); [done|]. right; left.
  - exists f. rewrite item_drop_other; [done|].
    apply (required_not_dropped c); [done|]. right; right; left.
  - intros Hvg. rewrite geometry_drop_other; [by apply Hgeo|].
    intros [= Heq]. by apply (Hg Hvg).
Qed.

Lemma meets_setitem obj vg (c : string) col :
  c ∉ _required_columns → (vg = true → c ≠ geometry_name obj) →
  meets obj vg → meets (setitem obj c col) vg.
Proof.
  intros Hc Hg (Hpos & Hmiss & (s & Hs & Hstz) & (f & Hf & Hftz) & Hgeo).
  split_and!.
  - done.
  - by apply any_missing_setitem.
  - exists s. rewrite item_setitem_other; [done|].
    apply (required_not_dropped c); [done|]. right; left.
  - exists f. rewrite item_setitem_other; [done|].
    apply (required_not_dropped c); [done|]. right; right; left.
  - intros Hvg. rewrite geometry_setitem_other; [by apply Hgeo|by apply Hg].
Qed.

(** X16: without one of the required columns no table passes: after the
    drop of a required column [_check] returns [False] and the constructor
    raises, whatever else the table holds. *)
Theorem drop_required_fails (obj : DataFrame) (c : string) (validate_geometry : bool) :
  c ∈ _required_columns →
  _check (drop obj c) validate_geometry = Ok false ∧
  raises (__init__ (drop obj c) validate_geometry).
Proof.
  intros Hin.
  assert (any_missing (drop obj c) = true) as Hmiss.
  { unfold any_missing. apply existsb_exists. exists c.
    split; [by apply list_elem_of_In|]. by rewrite has_column_drop_same. }
  split.
  - unfold _check. by rewrite Hmiss.
  - unfold __init__.
    destruct (_validate (drop obj c) validate_geometry) as [[]|e] eqn:E; [|by eexists].
    apply validate_meets in E as (_ & E & _). congruence.
Qed.

Lemma drop_required_fails_witness :
  "user_id" ∈ _required_columns ∧
  _check (drop examples.segments "user_id") true = Ok false.
Proof.
  assert ("user_id" ∈ _required_columns) as Hin by left.
  split; [exact Hin|].
  by apply (drop_required_fails examples.segments "user_id" true).
Defined.

(** X17: a table that passes [_check] still passes after the drop of a
    column that is not required; with [validate_geometry] set the column
    must not be the active geometry column, without it even that column
    may go. *)
Theorem drop_other_keeps_check (obj : DataFrame) (c : string) (validate_geometry : bool) :
  c ∉ _required_columns →
  (validate_geometry = true → c ≠ geometry_name obj) →
  _check obj validate_geometry = Ok true →
  _check (drop obj c) validate_geometry = Ok true.
Proof. rewrite !check_meets. apply meets_drop. Qed.

Lemma drop_other_keeps_check_witness :
  _check examples.segments false = Ok true ∧
  _check (drop examples.segments "geometry") false = Ok true.
Proof.
  split; [reflexivity|].
  apply (drop_other_keeps_check examples.segments "geometry" false);
    [|discriminate|reflexivity].
  intros Hin. repeat (apply elem_of_cons in Hin as [Hin|Hin]; [discriminate|]).
  by apply elem_of_nil in Hin.
Defined.

(** X18: the classifier keeps the contract of its input: on a table that
    passes [_check], whose geometry column is not called mode when the
    geometry is to be validated, the table that [predict_transport_mode]
    returns passes [_check] as well. *)
Theorem predict_keeps_contract
    (get_speed_triplegs : DataFrame → result SpeedFrame) (h : heap) l obj
    (validate_geometry : bool) method categories l' h' :
  h !! l = Some obj →
  _check obj validate_geometry = Ok true →
  (validate_geometry = true → geometry_name obj ≠ "mode") →
  predict_transport_mode get_speed_triplegs h l method categories = (Ok l', h') →
  ∃ obj', h' !! l' = Some obj' ∧ _check obj' validate_geometry = Ok true.
Proof.
  intros Hl Hcheck Hgeo. unfold predict_transport_mode.
  destruct (String.eqb method "simple-coarse"); [|done].
  destruct (predict_simple_coarse_cases get_speed_triplegs h l
              (default default_categories categories))
    as [[e ->]|[(e & obj0 & _ & ->)|(obj0 & values & Hl0 & ->)]]; [done|done|].
  intros [= <- <-]. rewrite Hl in Hl0. injection Hl0 as <-.
  eexists. split; [apply lookup_insert_eq|].
  apply check_meets, meets_setitem; [| |by apply check_meets].
  - intros Hin. repeat (apply elem_of_cons in Hin as [Hin|Hin]; [discriminate|]).
    by apply elem_of_nil in Hin.
  - intros Hvg Heq. by apply (Hgeo Hvg).
Qed.

Lemma predict_keeps_contract_witness :
  ∃ obj',
    (predict_transport_mode (examples.speeds [2.0; 30.0; 200.0]%float)
       examples.store 1%positive "simple-coarse" None).2 !! 2%positive = Some obj' ∧
    _check obj' true = Ok true.
Proof.
  apply (predict_keeps_contract (examples.speeds [2.0; 30.0; 200.0]%float)
           examples.store 1%positive examples.segments true "simple-coarse" None);
    [reflexivity|reflexivity|discriminate|reflexivity].
Defined.

End contract_more.

(** ** The arguments of [generate_trips] *)

Module methods_more.
Import methods.

Section generate_trips.

Context {V R : Type}.
Variable repr : V → string.
Variable generate_trips_impl : gmap string V → result R.

Lemma keywords_commute (self sp : V) (kwargs : gmap string V) :
  <[ "staypoints" := sp ]> {[ "triplegs" := self ]} ∪ kwargs
  = {[ "triplegs" := self ]} ∪ <[ "staypoints" := sp ]> kwargs.
Proof.
  apply map_eq. intros k. rewrite !lookup_union.
  destruct (decide (k = "staypoints")) as [->|Hs].
  - rewrite !lookup_insert_eq. rewrite lookup_singleton_ne by done. simpl.
    by destruct (kwargs !! "staypoints").
  - assert ("staypoints" ≠ k) as Hs' by congruence.
    by rewrite !lookup_insert_ne.
Qed.

(** X19: staypoints may come as the one positional argument or under the
    keyword: both calls hand the same keyword arguments to the function
    behind the method, and fail alike when [kwargs] holds a keyword
    [triplegs]. *)
Theorem generate_trips_positional_or_keyword (self sp : V) (kwargs : gmap string V) :
  kwargs !! "staypoints" = None →
  generate_trips repr generate_trips_impl self [sp] kwargs
  = generate_trips repr generate_trips_impl self [] (<[ "staypoints" := sp ]> kwargs).
Proof.
  intros Hnone. unfold generate_trips, py_assert.
  rewrite (bool_decide_eq_false_2 (is_Some (kwargs !! "staypoints")))
    by (rewrite Hnone; by intros [? ?]).
  rewrite (bool_decide_eq_true_2 (is_Some (<[ "staypoints" := sp ]> kwargs !! "staypoints")))
    by (rewrite lookup_insert_eq; by eexists).
  cbn. unfold keyword_call. rewrite keywords_commute.
  assert ((<[ "staypoints" := sp ]> {[ "triplegs" := self ]} : gmap string V) ##ₘ kwargs
          ↔ ({[ "triplegs" := self ]} : gmap string V) ##ₘ <[ "staypoints" := sp ]> kwargs)
    as Hdisj.
  { rewrite map_disjoint_insert_l, !map_disjoint_singleton_l.
    rewrite lookup_insert_ne by done. rewrite Hnone. split; [by intros [_ ?]|done]. }
  by rewrite (bool_decide_ext _ _ Hdisj).
Qed.

(** X20: how the method treats its positional arguments: with staypoints
    under the keyword they are not looked at, so any number of them is
    passed over in silence; without the keyword, no positional argument is
    an [IndexError] and two or more are an [AssertionError] that prints the
    surplus ones, and in neither case is the function behind the method
    called. *)
Theorem generate_trips_positional (self : V) (args : list V) (kwargs : gmap string V) :
  (is_Some (kwargs !! "staypoints") →
   generate_trips repr generate_trips_impl self args kwargs
   = generate_trips repr generate_trips_impl self [] kwargs) ∧
  (kwargs !! "staypoints" = None → args = [] →
   generate_trips repr generate_trips_impl self args kwargs
   = Raise (IndexError "tuple index out of range")) ∧
  (kwargs !! "staypoints" = None → (2 ≤ length args)%nat →
   generate_trips repr generate_trips_impl self args kwargs
   = Raise (AssertionError
       ("All arguments except 'staypoints' have to be given as keyword arguments. You gave "
        +:+ repr_tuple repr (tail args) +:+ " as positional arguments."))).
Proof.
  unfold generate_trips, py_assert. split_and!.
  - intros Hsome. by rewrite !bool_decide_eq_true_2.
  - intros Hnone ->. rewrite bool_decide_eq_false_2; [done|].
    rewrite Hnone. by intros [? ?].
  - intros Hnone Hlen. rewrite bool_decide_eq_false_2 by (rewrite Hnone; by intros [? ?]).
    by rewrite (bool_decide_eq_false_2 (length args ≤ 1)%nat) by lia.
Qed.

End generate_trips.

Lemma generate_trips_positional_or_keyword_witness :
  (∅ : gmap string string) !! "staypoints" = None ∧
  generate_trips examples_more.quoted (λ kw, Ok (kw !! "staypoints")) "tpls" ["sp"] ∅
  = Ok (Some "sp").
Proof.
  split; [reflexivity|].
  rewrite (generate_trips_positional_or_keyword examples_more.quoted
             (λ kw, Ok (kw !! "staypoints")) "tpls" "sp" ∅); reflexivity.
Defined.

Lemma generate_trips_positional_witness :
  generate_trips examples_more.quoted
    (λ kw : gmap string string, Ok (kw !! "staypoints"))
    "tpls" ["sp"; "pfs"; "x"] ∅
  = Raise (AssertionError
      "All arguments except 'staypoints' have to be given as keyword arguments. You gave ('pfs', 'x') as positional arguments.").
Proof.
  destruct (generate_trips_positional examples_more.quoted
              (λ kw : gmap string string, Ok (kw !! "staypoints"))
              "tpls" ["sp"; "pfs"; "x"] ∅) as (_ & _ & H).
  rewrite H; [reflexivity|reflexivity|simpl; lia].
Defined.

End methods_more.
